(** * Solar position and irradiance calculator (DST-aware): a shallow embedding

    The sketch is a flat set of C++ functions: [dayOfYear], [getGamma],
    [getDeclination], [getHourAngle], [getIrradiance], [isDST],
    [computeSolar] and the Arduino [loop].  They are embedded here function
    by function.

    Conventions of the embedding.
    - A C [int] is a [Z] and every [int] operation wraps to 32 bits in two's
      complement ([wrap]), the [int] of the ESP32 that the sketch names;
      [/] and [%] truncate toward zero ([Z.quot], [Z.rem]).  Signed
      overflow is undefined behaviour in C; the wrap is what the hardware
      does.  Results that need exact arithmetic state that the values fit.
    - A C [float] / [double] is a real number of [R]: arithmetic is exact,
      and rounding, infinities and NaN are outside the embedding.  What is
      proved about a value holds of the program up to rounding.  Where
      [float] arithmetic differs in kind (the sun within 0.001 degrees
      above the horizon in [getIrradiance]; the sun at the zenith, and the
      azimuth next to 360, in [computeSolar]), the definition says so and
      the statements leave these inputs out.
    - Reading a C array outside its bounds is a [Fault].
    - [Serial] is an output stream, passed explicitly. *)

From Stdlib Require Import ZArith List Bool String Lia.
From Stdlib Require Import Reals Lra Machin.
Import ListNotations.

Local Open Scope Z_scope.

(** ** C [int] arithmetic *)

Module CInt.

Definition int_bits : Z := 32.
Definition INT_MIN : Z := - 2 ^ (int_bits - 1).
Definition INT_MAX : Z := 2 ^ (int_bits - 1) - 1.

(** Reduction of a mathematical integer to the representable range. *)
Definition wrap (z : Z) : Z :=
  (z - INT_MIN) mod 2 ^ int_bits + INT_MIN.

Definition in_int (z : Z) : Prop := INT_MIN <= z <= INT_MAX.

Definition add (a b : Z) : Z := wrap (a + b).
Definition sub (a b : Z) : Z := wrap (a - b).
Definition mul (a b : Z) : Z := wrap (a * b).
(** C99 division truncates toward zero; the remainder has the sign of the
    dividend. *)
Definition div (a b : Z) : Z := wrap (Z.quot a b).
Definition rem (a b : Z) : Z := Z.rem a b.

End CInt.

Declare Scope cint_scope.
Delimit Scope cint_scope with cint.
Infix "+i" := CInt.add (at level 50, left associativity) : cint_scope.
Infix "-i" := CInt.sub (at level 50, left associativity) : cint_scope.
Infix "*i" := CInt.mul (at level 40, left associativity) : cint_scope.
Infix "/i" := CInt.div (at level 40, left associativity) : cint_scope.
Infix "%i" := CInt.rem (at level 40, left associativity) : cint_scope.
Local Open Scope cint_scope.

(** ** Faults and the error monad *)

Inductive fault : Set :=
| IndexOutOfBounds
| DivisionByZero
| DomainError
| IntOverflow.

Inductive result (A : Type) : Type :=
| Ok (a : A)
| Fault (f : fault).

Arguments Ok {A} a.
Arguments Fault {A} f.

Definition bind {A B : Type} (r : result A) (k : A -> result B) : result B :=
  match r with
  | Ok a => k a
  | Fault f => Fault f
  end.

Notation "x <- r ;; k" := (bind r (fun x => k))
  (at level 61, r at next level, right associativity).

(** [a[i]] on a C array of [int]. *)
Definition array_get (a : list Z) (i : Z) : result Z :=
  if (0 <=? i) && (i <? Z.of_nat (List.length a))
  then Ok (nth (Z.to_nat i) a 0)
  else Fault IndexOutOfBounds.

(** ** CalendarMath *)

Definition daysBeforeMonth : list Z :=
  [0; 31; 59; 90; 120; 151; 181; 212; 243; 273; 304; 334].

Definition dayOfYear (y m d : Z) : result Z :=
  base <- array_get daysBeforeMonth (m -i 1) ;;
  let doy := base +i d in
  if (2 <? m) && (((y %i 4 =? 0) && negb (y %i 100 =? 0)) || (y %i 400 =? 0))
  then Ok (doy +i 1)
  else Ok doy.

(** The Gregorian rule in the words of the specification: divisible by 4
    and (not divisible by 100, or divisible by 400). *)
Definition gregorian_leap (y : Z) : bool :=
  (y mod 4 =? 0) && (negb (y mod 100 =? 0) || (y mod 400 =? 0)).

(** ** DstRule *)

(** The block of [isDST] commented "Zeller's Congruence for day of week
    (0 = Sunday)".  It is applied to the [day] that [isDST] receives. *)
Definition zeller_weekday (year month day : Z) : Z :=
  let y := if month <? 3 then year -i 1 else year in
  let m := if month <? 3 then month +i 12 else month in
  let K := y %i 100 in
  let J := y /i 100 in
  let h := (day +i 13 *i (m +i 1) /i 5 +i K +i K /i 4 +i J /i 4 +i 5 *i J) %i 7 in
  (h +i 6) %i 7.

Definition isDST (year month day hour : Z) : bool :=
  if (month <? 3) || (11 <? month) then false
  else if (3 <? month) && (month <? 11) then true
  else
    let weekday := zeller_weekday year month day in
    if month =? 3 then
      let secondSunday := 14 -i weekday in
      (secondSunday <? day) || ((day =? secondSunday) && (2 <=? hour))
    else if month =? 11 then
      let firstSunday := 7 -i weekday in
      (day <? firstSunday) || ((day =? firstSunday) && (hour <? 2))
    else false.

(** The offset chosen in [loop]: [isDST(...) ? -5 : -6] (CDT or CST). *)
Definition select_tz_offset (year month day hour : Z) : Z :=
  if isDST year month day hour then -5 else -6.

(** ** Floating-point code, over the reals *)

Section FloatCode.

Local Open Scope R_scope.

(** Location: Carbondale, IL. *)
Definition latitude : R := 37.7272.
Definition longitude : R := -89.2168.

Definition DEG_TO_RAD : R := 0.0174532925.
Definition RAD_TO_DEG : R := 57.2957795131.

(** Modelled from the spec: the macro [PI] of the Arduino core, which the
    sketch uses and does not define; the specification writes the number
    pi in its place ("gamma = 2 pi / 365 ..."). *)
Definition Arduino_PI : R := PI.

(** *** C library functions used by the sketch *)

(** Truncation toward zero. *)
Definition Rtrunc (x : R) : Z :=
  if Rle_dec 0 x then Int_part x else (- Int_part (- x))%Z.

(** [fmod(x, y)]: [x - n*y] with [n] the quotient [x/y] truncated toward
    zero, so the result has the sign of [x]. *)
Definition fmod (x y : R) : R := x - IZR (Rtrunc (x / y)) * y.

(** [atan2(y, x)]: the angle of the point [(x, y)], in [[-PI, PI]]. *)
Definition atan2 (y x : R) : R :=
  if Rlt_dec 0 x then atan (y / x)
  else if Rlt_dec x 0 then
    if Rle_dec 0 y then atan (y / x) + PI else atan (y / x) - PI
  else
    if Rlt_dec 0 y then PI / 2
    else if Rlt_dec y 0 then - (PI / 2)
    else 0.

(** *** SolarGeometry *)

Definition getGamma (doy hour : Z) : R :=
  2 * Arduino_PI / 365 * (IZR (doy -i 1) + IZR (hour -i 12) / 24).

Definition getDeclination (gamma : R) : R :=
  0.006918
  - 0.399912 * cos gamma
  + 0.070257 * sin gamma
  - 0.006758 * cos (2 * gamma)
  + 0.000907 * sin (2 * gamma)
  - 0.002697 * cos (3 * gamma)
  + 0.00148 * sin (3 * gamma).

Definition getHourAngle (gamma lon : R) (hour minute second tz_offset : Z) : R :=
  let eq_time := 229.18 * (0.000075
                           + 0.001868 * cos gamma
                           - 0.032077 * sin gamma
                           - 0.014615 * cos (2 * gamma)
                           - 0.040849 * sin (2 * gamma)) in
  let time_offset := eq_time + 4 * lon - IZR (60 *i tz_offset) in
  let true_solar_time :=
    IZR (hour *i 60 +i minute) + IZR second / 60 + time_offset in
  let ha_deg := true_solar_time / 4 - 180 in
  ha_deg * DEG_TO_RAD.

(** *** IrradianceModel *)

(** In [float], for an elevation of less than 0.001 degrees above 0 the
    difference [90.0 - elevation_deg] rounds to 90 or next to it and the
    zenith angle to pi/2 or past it: the cosine is then 0 to rounding and
    can be negative, [exp] of the quotient overflows or underflows, and
    the product is an infinity or 0 instead of the small positive number
    of exact arithmetic.  From 0.001 degrees upward the cosine is
    positive in [float] as it is here. *)
Definition getIrradiance (elevation_deg : R) : R :=
  if Rle_dec elevation_deg 0 then 0
  else
    let zenith_rad := (90 - elevation_deg) * DEG_TO_RAD in
    1098 * cos zenith_rad * exp (-0.059 / cos zenith_rad).

(** *** SolarPositionCalculator *)

(** The four values that [computeSolar] prints. *)
Record SolarOutput : Type := {
  elevation : R;
  azimuth : R;
  irradiance : R;
  time_zone : Z
}.

(** The computation of [computeSolar], up to the comment "Output".  The
    sum [sin_elev] is passed to [asin] as it is, and the result of [fmod]
    is stored as it is.  In exact arithmetic the sum stays within
    [[-1, 1]] and [fmod] stays below 360; in [float] the sum can round to
    a value above 1 when the sun is at the zenith, where [asin] has no
    value, and an azimuth next to 360 can round to 360. *)
Definition solarValues (lat lon : R)
    (year month day hour minute second tz_offset : Z) : result SolarOutput :=
  doy <- dayOfYear year month day ;;
  let gamma := getGamma doy hour in
  let decl := getDeclination gamma in
  let ha := getHourAngle gamma lon hour minute second tz_offset in
  let lat_rad := lat * DEG_TO_RAD in
  let sin_elev := sin lat_rad * sin decl + cos lat_rad * cos decl * cos ha in
  let elev_rad := asin sin_elev in
  let elevation := elev_rad * RAD_TO_DEG in
  let y := sin ha in
  let x := cos ha * sin lat_rad - tan decl * cos lat_rad in
  let az_rad := atan2 y x in
  let azimuth := fmod (az_rad * RAD_TO_DEG + 180) 360 in
  let irradiance := getIrradiance elevation in
  Ok {| elevation := elevation; azimuth := azimuth;
        irradiance := irradiance; time_zone := tz_offset |}.

End FloatCode.

(** ** Serial output *)

(** What the sketch writes to [Serial], in order: a text, a [float] printed
    with a number of decimals, an [int], an end of line. *)
Inductive SerialItem : Type :=
| Text (s : string)
| Number (r : R) (decimals : nat)
| Integer (z : Z)
| EndOfLine.

Definition SerialPort : Type := list SerialItem.

Definition print (s : string) (port : SerialPort) : SerialPort :=
  port ++ [Text s].
Definition println (s : string) (port : SerialPort) : SerialPort :=
  port ++ [Text s; EndOfLine].
Definition print_float (r : R) (decimals : nat) (port : SerialPort) : SerialPort :=
  port ++ [Number r decimals].
Definition println_int (z : Z) (port : SerialPort) : SerialPort :=
  port ++ [Integer z; EndOfLine].

(** The section "Output" of [computeSolar]. *)
Definition printSolar (v : SolarOutput) (port : SerialPort) : SerialPort :=
  let port := println "==================================" port in
  let port := print "Elevation:   " port in
  let port := print_float (elevation v) 2 port in
  let port := println " °" port in
  let port := print "Azimuth:     " port in
  let port := print_float (azimuth v) 2 port in
  let port := println " ° (from North)" port in
  let port := print "Irradiance:  " port in
  let port := print_float (irradiance v) 2 port in
  let port := println " W/m²" port in
  let port := print "Time Zone:   UTC" port in
  println_int (time_zone v) port.

Definition computeSolar (lat lon : R)
    (year month day hour minute second tz_offset : Z)
    (port : SerialPort) : result SerialPort :=
  v <- solarValues lat lon year month day hour minute second tz_offset ;;
  Ok (printSolar v port).

(** The body of [loop] for one line, once [sscanf] has filled the six
    fields: choose the offset, compute, prompt again. *)
Definition handleLine (year month day hour minute second : Z)
    (port : SerialPort) : result SerialPort :=
  let tz_offset := select_tz_offset year month day hour in
  port <- computeSolar latitude longitude
            year month day hour minute second tz_offset port ;;
  Ok (println (String (Ascii.ascii_of_nat 10) "Enter next time:") port).

(** ** The core with every partial operation checked

    The same seven functions, where each operation that C leaves undefined
    ends in a [Fault]: an array read outside its bounds, an [int] result
    that does not fit an [int] (signed overflow), a division or remainder
    by zero, and [tan] at a pole.  Under the conjunction of a C condition
    every operand is evaluated, which checks more than the code executes.
    The domain of [asin] is not checked: whether its argument exceeds 1
    is decided by the rounding of the [float] sum, which is outside the
    embedding. *)

Definition int_chk (z : Z) : result Z :=
  if (CInt.INT_MIN <=? z) && (z <=? CInt.INT_MAX) then Ok z
  else Fault IntOverflow.

Definition add_chk (a b : Z) : result Z := int_chk (a + b).
Definition sub_chk (a b : Z) : result Z := int_chk (a - b).
Definition mul_chk (a b : Z) : result Z := int_chk (a * b).

Definition div_int (a b : Z) : result Z :=
  if b =? 0 then Fault DivisionByZero else int_chk (Z.quot a b).

Definition rem_int (a b : Z) : result Z :=
  if b =? 0 then Fault DivisionByZero
  else _ <- int_chk (Z.quot a b) ;; Ok (Z.rem a b).

Definition div_float (a b : R) : result R :=
  if Req_dec_T b 0 then Fault DivisionByZero else Ok (a / b)%R.

Definition tan_dom (x : R) : result R :=
  if Req_dec_T (cos x) 0 then Fault DomainError else Ok (tan x).

Definition fmod_dom (x y : R) : result R :=
  q <- div_float x y ;;
  Ok (x - IZR (Rtrunc q) * y)%R.

Definition dayOfYear_chk (y m d : Z) : result Z :=
  i <- sub_chk m 1 ;;
  base <- array_get daysBeforeMonth i ;;
  doy <- add_chk base d ;;
  r4 <- rem_int y 4 ;;
  r100 <- rem_int y 100 ;;
  r400 <- rem_int y 400 ;;
  if (2 <? m) && (((r4 =? 0) && negb (r100 =? 0)) || (r400 =? 0))
  then add_chk doy 1
  else Ok doy.

Definition getGamma_chk (doy hour : Z) : result R :=
  a <- div_float (2 * Arduino_PI) 365 ;;
  d1 <- sub_chk doy 1 ;;
  h12 <- sub_chk hour 12 ;;
  b <- div_float (IZR h12) 24 ;;
  Ok (a * (IZR d1 + b))%R.

Definition getHourAngle_chk (gamma lon : R)
    (hour minute second tz_offset : Z) : result R :=
  let eq_time := (229.18 * (0.000075
                            + 0.001868 * cos gamma
                            - 0.032077 * sin gamma
                            - 0.014615 * cos (2 * gamma)
                            - 0.040849 * sin (2 * gamma)))%R in
  tz60 <- mul_chk 60 tz_offset ;;
  let time_offset := (eq_time + 4 * lon - IZR tz60)%R in
  h60 <- mul_chk hour 60 ;;
  hm <- add_chk h60 minute ;;
  s <- div_float (IZR second) 60 ;;
  let true_solar_time := (IZR hm + s + time_offset)%R in
  q <- div_float true_solar_time 4 ;;
  let ha_deg := (q - 180)%R in
  Ok (ha_deg * DEG_TO_RAD)%R.

Definition getIrradiance_chk (elevation_deg : R) : result R :=
  if Rle_dec elevation_deg 0 then Ok 0%R
  else
    let zenith_rad := ((90 - elevation_deg) * DEG_TO_RAD)%R in
    e <- div_float (-0.059) (cos zenith_rad) ;;
    Ok (1098 * cos zenith_rad * exp e)%R.

Definition zeller_weekday_chk (year month day : Z) : result Z :=
  y <- (if month <? 3 then sub_chk year 1 else Ok year) ;;
  m <- (if month <? 3 then add_chk month 12 else Ok month) ;;
  K <- rem_int y 100 ;;
  J <- div_int y 100 ;;
  m1 <- add_chk m 1 ;;
  p13 <- mul_chk 13 m1 ;;
  q13 <- div_int p13 5 ;;
  qK <- div_int K 4 ;;
  qJ <- div_int J 4 ;;
  j5 <- mul_chk 5 J ;;
  s1 <- add_chk day q13 ;;
  s2 <- add_chk s1 K ;;
  s3 <- add_chk s2 qK ;;
  s4 <- add_chk s3 qJ ;;
  s5 <- add_chk s4 j5 ;;
  h <- rem_int s5 7 ;;
  h6 <- add_chk h 6 ;;
  rem_int h6 7.

Definition isDST_chk (year month day hour : Z) : result bool :=
  if (month <? 3) || (11 <? month) then Ok false
  else if (3 <? month) && (month <? 11) then Ok true
  else
    weekday <- zeller_weekday_chk year month day ;;
    if month =? 3 then
      secondSunday <- sub_chk 14 weekday ;;
      Ok ((secondSunday <? day) || ((day =? secondSunday) && (2 <=? hour)))
    else if month =? 11 then
      firstSunday <- sub_chk 7 weekday ;;
      Ok ((day <? firstSunday) || ((day =? firstSunday) && (hour <? 2)))
    else Ok false.

Definition solarValues_chk (lat lon : R)
    (year month day hour minute second tz_offset : Z) : result SolarOutput :=
  doy <- dayOfYear_chk year month day ;;
  gamma <- getGamma_chk doy hour ;;
  let decl := getDeclination gamma in
  ha <- getHourAngle_chk gamma lon hour minute second tz_offset ;;
  let lat_rad := (lat * DEG_TO_RAD)%R in
  let sin_elev :=
    (sin lat_rad * sin decl + cos lat_rad * cos decl * cos ha)%R in
  let elev_rad := asin sin_elev in
  let elevation := (elev_rad * RAD_TO_DEG)%R in
  let y := sin ha in
  tan_decl <- tan_dom decl ;;
  let x := (cos ha * sin lat_rad - tan_decl * cos lat_rad)%R in
  let az_rad := atan2 y x in
  azimuth <- fmod_dom (az_rad * RAD_TO_DEG + 180) 360 ;;
  irradiance <- getIrradiance_chk elevation ;;
  Ok {| elevation := elevation; azimuth := azimuth;
        irradiance := irradiance; time_zone := tz_offset |}.

Definition computeSolar_chk (lat lon : R)
    (year month day hour minute second tz_offset : Z)
    (port : SerialPort) : result SerialPort :=
  v <- solarValues_chk lat lon year month day hour minute second tz_offset ;;
  Ok (printSolar v port).


(** ** The specification's wording, for comparison *)

(** The DST rule as the specification words it: the weekday of the first
    of the month (0 = Sunday), from it the date of the second Sunday of
    March and of the first Sunday of November, and the comparison of the
    day and the hour with that date. *)
Definition secondSundayOfMarch_spec (year : Z) : Z :=
  8 + (7 - zeller_weekday year 3 1) mod 7.

Definition firstSundayOfNovember_spec (year : Z) : Z :=
  1 + (7 - zeller_weekday year 11 1) mod 7.

Definition isDaylightSaving_spec (year month day hour : Z) : bool :=
  if (month <? 3) || (11 <? month) then false
  else if (3 <? month) && (month <? 11) then true
  else if month =? 3 then
    let secondSunday := secondSundayOfMarch_spec year in
    (secondSunday <? day) || ((day =? secondSunday) && (2 <=? hour))
  else
    let firstSunday := firstSundayOfNovember_spec year in
    (day <? firstSunday) || ((day =? firstSunday) && (hour <? 2)).

(** The hour angle as the specification words it, in exact arithmetic:
    equation of time, time offset, true solar time, degrees from solar
    noon, and the conversion of degrees to radians, by pi/180. *)
Definition eqTime_spec (gamma : R) : R :=
  (229.18 * (0.000075 + 0.001868 * cos gamma - 0.032077 * sin gamma
             - 0.014615 * cos (2 * gamma) - 0.040849 * sin (2 * gamma)))%R.

Definition hourAngleDegrees_spec
    (gamma longitude hour minute second utcOffset : R) : R :=
  (let eqTime := eqTime_spec gamma in
   let timeOffset := eqTime + 4 * longitude - 60 * utcOffset in
   let trueSolarTime := hour * 60 + minute + second / 60 + timeOffset in
   trueSolarTime / 4 - 180)%R.

Definition radians_spec (degrees : R) : R := (degrees * (PI / 180))%R.

Definition hourAngle_spec
    (gamma longitude hour minute second utcOffset : R) : R :=
  radians_spec
    (hourAngleDegrees_spec gamma longitude hour minute second utcOffset).

(** ** The Arduino entry points *)

(** [setup]: the prompt written once the port is open. *)
Definition setup (port : SerialPort) : SerialPort :=
  println "Enter: year,month,day,hour,minute,second" port.

(** The state that [loop] keeps between two calls: its static [input]
    buffer, and the port. *)
Record LoopState : Type := {
  input : string;
  serial : SerialPort
}.

(** Why a run of [loop] leaves the embedding: [sscanf] converted fewer
    than six fields, so that the remaining variables hold indeterminate
    values, or the core met a fault. *)
Inductive LoopStop : Type :=
| FieldsNotScanned
| CoreFault (f : fault).

Inductive LoopResult : Type :=
| Running (st : LoopState)
| Stopped (why : LoopStop).

(** The test [c == '\n' || c == '\r']. *)
Definition isLineEnd (c : Ascii.ascii) : bool :=
  Ascii.eqb c (Ascii.ascii_of_nat 10) || Ascii.eqb c (Ascii.ascii_of_nat 13).

Section ArduinoLoop.

(** [sscanf(line, "%d,%d,%d,%d,%d,%d", ...)] belongs to the C library: it
    is a parameter, giving the six fields when all six are converted. *)
Variable sscanf6 : string -> option (Z * Z * Z * Z * Z * Z).

(** The body of the [while] loop for one character read from the port. *)
Definition loopChar (c : Ascii.ascii) (st : LoopState) : LoopResult :=
  if isLineEnd c then
    if (0 <? String.length (input st))%nat then
      match sscanf6 (input st) with
      | Some (year, month, day, hour, minute, second) =>
          match handleLine year month day hour minute second (serial st) with
          | Ok port => Running {| input := ""; serial := port |}
          | Fault f => Stopped (CoreFault f)
          end
      | None => Stopped FieldsNotScanned
      end
    else Running st
  else Running {| input := input st ++ String c ""; serial := serial st |}.

(** [loop]: [while (Serial.available())] over the characters [rx] that the
    port holds. *)
Fixpoint loop (rx : list Ascii.ascii) (st : LoopState) : LoopResult :=
  match rx with
  | [] => Running st
  | c :: rx' =>
      match loopChar c st with
      | Running st' => loop rx' st'
      | Stopped why => Stopped why
      end
  end.

(** The sketch's [loop] is called again and again by the Arduino core,
    each time with the characters that have arrived since. *)
Fixpoint runLoops (arrivals : list (list Ascii.ascii)) (st : LoopState)
    : LoopResult :=
  match arrivals with
  | [] => Running st
  | rx :: arrivals' =>
      match loop rx st with
      | Running st' => runLoops arrivals' st'
      | Stopped why => Stopped why
      end
  end.

End ArduinoLoop.

(** No line end among the characters. *)
Definition noLineEnd (cs : list Ascii.ascii) : Prop :=
  Forall (fun c => isLineEnd c = false) cs.

(** ** The calendar, for comparison *)

(** The lengths of the months of the Gregorian calendar.  The sketch has no
    such table; [daysBeforeMonth] holds their running sums. *)
Definition daysInMonth (y m : Z) : Z :=
  if m =? 2 then (if gregorian_leap y then 29 else 28)
  else if (m =? 4) || (m =? 6) || (m =? 9) || (m =? 11) then 30
  else 31.

(** * Properties *)

(** ** Integer layer *)

Lemma wrap_small (z : Z) : CInt.in_int z -> CInt.wrap z = z.
Proof.
  unfold CInt.in_int, CInt.wrap, CInt.INT_MIN, CInt.INT_MAX, CInt.int_bits.
  simpl. intros H. rewrite Z.mod_small; lia.
Qed.

Lemma wrap_in_int (z : Z) : CInt.in_int (CInt.wrap z).
Proof.
  unfold CInt.in_int, CInt.wrap.
  pose proof (Z.mod_pos_bound (z - CInt.INT_MIN) (2 ^ CInt.int_bits)) as H.
  unfold CInt.INT_MIN, CInt.INT_MAX, CInt.int_bits in *. simpl in *. lia.
Qed.

Lemma in_int_bounds (z : Z) : -2147483648 <= z <= 2147483647 -> CInt.in_int z.
Proof. intros H; exact H. Qed.

Lemma add_small (a b : Z) : CInt.in_int (a + b) -> a +i b = a + b.
Proof. apply wrap_small. Qed.

Lemma sub_small (a b : Z) : CInt.in_int (a - b) -> a -i b = a - b.
Proof. apply wrap_small. Qed.

Lemma mul_small (a b : Z) : CInt.in_int (a * b) -> a *i b = a * b.
Proof. apply wrap_small. Qed.

(** The remainder by a positive constant never reaches the constant in
    absolute value, whatever the sign of the dividend. *)
Lemma rem_bound (a n : Z) : 0 < n -> - n < a %i n < n.
Proof.
  intros Hn. unfold CInt.rem.
  assert (Hne : n <> 0) by lia.
  pose proof (Z.rem_bound_abs a n Hne). lia.
Qed.

Lemma rem_nonneg (a n : Z) : 0 <= a -> 0 < n -> 0 <= a %i n < n.
Proof. intros Ha Hn. exact (Z.rem_bound_pos a n Ha Hn). Qed.

(** [x % n == 0] tests divisibility, for C's remainder as for [mod]. *)
Lemma rem_eqb_mod (a n : Z) : 0 < n -> (a %i n =? 0) = (a mod n =? 0).
Proof.
  intros Hn. unfold CInt.rem.
  destruct (Z.eqb_spec (Z.rem a n) 0) as [Hr | Hr];
    destruct (Z.eqb_spec (a mod n) 0) as [Hm | Hm]; try reflexivity; exfalso.
  - apply Hm. apply Z.mod_divide; [lia|]. apply Z.rem_divide; [lia|exact Hr].
  - apply Hr. apply Z.rem_divide; [lia|]. apply Z.mod_divide; [lia|exact Hm].
Qed.

(** The leap-year test written in [dayOfYear] is the Gregorian rule. *)
Lemma leap_test_gregorian (y : Z) :
  ((y %i 4 =? 0) && negb (y %i 100 =? 0)) || (y %i 400 =? 0) = gregorian_leap y.
Proof.
  unfold gregorian_leap. rewrite !rem_eqb_mod by lia.
  destruct (Z.eqb_spec (y mod 4) 0) as [H4 | H4];
    destruct (Z.eqb_spec (y mod 100) 0) as [H100 | H100];
    destruct (Z.eqb_spec (y mod 400) 0) as [H400 | H400];
    try reflexivity; exfalso.
  all: apply H4; apply Z.mod_divide; [lia|];
    apply Z.mod_divide in H400; [|lia];
    destruct H400 as [k Hk]; exists (100 * k); lia.
Qed.

(** Removes the wraps whose argument is seen to fit an [int], innermost
    first. *)
Ltac int_exact :=
  unfold CInt.add, CInt.sub, CInt.mul;
  repeat match goal with
    | |- context [CInt.wrap ?z] =>
        rewrite (wrap_small z) by (apply in_int_bounds; lia)
    end.

Lemma div_small (a b : Z) : 0 <= a <= 2147483647 -> 0 < b -> a /i b = a / b.
Proof.
  intros Ha Hb. unfold CInt.div. rewrite Z.quot_div_nonneg by lia.
  apply wrap_small, in_int_bounds.
  pose proof (Z.div_pos a b ltac:(lia) Hb).
  pose proof (Z.div_le_upper_bound a b 2147483647 Hb ltac:(nia)). lia.
Qed.

Lemma rem_small (a b : Z) : 0 <= a -> 0 < b -> a %i b = a mod b.
Proof. intros Ha Hb. unfold CInt.rem. apply Z.rem_mod_nonneg; lia. Qed.

(** ** dayOfYear *)

Lemma month_cases (m : Z) :
  1 <= m <= 12 ->
  m = 1 \/ m = 2 \/ m = 3 \/ m = 4 \/ m = 5 \/ m = 6 \/
  m = 7 \/ m = 8 \/ m = 9 \/ m = 10 \/ m = 11 \/ m = 12.
Proof. lia. Qed.

Ltac each_month H :=
  apply month_cases in H;
  repeat (destruct H as [H | H]); subst.

(** With a month of the table, [dayOfYear] returns the table entry plus the
    day, plus the leap day after February. *)
Lemma dayOfYear_eq (y m d : Z) :
  1 <= m <= 12 -> 1 <= d <= 31 ->
  dayOfYear y m d =
  Ok (nth (Z.to_nat (m - 1)) daysBeforeMonth 0 + d
      + (if (2 <? m) && gregorian_leap y then 1 else 0)).
Proof.
  intros Hm Hd. unfold dayOfYear. rewrite leap_test_gregorian.
  each_month Hm.
  all: match goal with
       | |- context [array_get ?a ?i] =>
           let v := eval vm_compute in (array_get a i) in
           change (array_get a i) with v
       end.
  all: match goal with
       | |- context [nth ?n ?l ?x] =>
           let v := eval vm_compute in (nth n l x) in
           change (nth n l x) with v
       end.
  all: match goal with
       | |- context [2 <? ?k] =>
           let v := eval vm_compute in (2 <? k) in
           change (2 <? k) with v
       end.
  all: cbv beta iota delta [bind andb].
  all: try destruct (gregorian_leap y).
  all: rewrite (add_small _ d) by (apply in_int_bounds; lia).
  all: rewrite ?add_small by (apply in_int_bounds; lia).
  all: f_equal; lia.
Qed.

(** C2.  For every year [y], month [m] in 1..12 and day [d] in 1..31,
    [dayOfYear y m d] is the entry [m-1] of the cumulative table
    {0,31,59,90,120,151,181,212,243,273,304,334} plus [d], plus 1 when
    [m > 2] and [y] is a Gregorian leap year (divisible by 4 and (not
    divisible by 100, or divisible by 400)); in particular
    [dayOfYear 2025 1 1 = 1], [dayOfYear 2025 12 31 = 365] and
    [dayOfYear 2024 12 31 = 366]. *)
Theorem dayOfYear_table_leap (y m d : Z) :
  1 <= m <= 12 -> 1 <= d <= 31 ->
  daysBeforeMonth = [0; 31; 59; 90; 120; 151; 181; 212; 243; 273; 304; 334] /\
  dayOfYear y m d =
    Ok (nth (Z.to_nat (m - 1)) daysBeforeMonth 0 + d
        + (if (2 <? m) && gregorian_leap y then 1 else 0)) /\
  dayOfYear 2025 1 1 = Ok 1 /\
  dayOfYear 2025 12 31 = Ok 365 /\
  dayOfYear 2024 12 31 = Ok 366.
Proof.
  intros Hm Hd.
  split; [reflexivity|].
  split; [exact (dayOfYear_eq y m d Hm Hd)|].
  repeat split; vm_compute; reflexivity.
Qed.

Lemma dayOfYear_table_leap_witness :
  gregorian_leap 2024 = true /\ dayOfYear 2024 3 1 = Ok (59 + 1 + 1).
Proof.
  split; [reflexivity|].
  apply (dayOfYear_table_leap 2024 3 1); lia.
Defined.

(** C10.  For every year [y], month [m] in 1..12 and day [d] in 1..31,
    [dayOfYear y m d] returns a value in 1..366. *)
Theorem dayOfYear_range (y m d : Z) :
  1 <= m <= 12 -> 1 <= d <= 31 ->
  exists doy : Z, dayOfYear y m d = Ok doy /\ 1 <= doy <= 366.
Proof.
  intros Hm Hd. rewrite (dayOfYear_eq y m d Hm Hd).
  eexists; split; [reflexivity|].
  destruct ((2 <? m) && gregorian_leap y);
    each_month Hm;
    match goal with
    | |- context [nth ?n ?l ?x] =>
        let v := eval vm_compute in (nth n l x) in
        change (nth n l x) with v
    end; lia.
Qed.

Lemma dayOfYear_range_witness :
  exists doy : Z, dayOfYear 2024 12 31 = Ok doy /\ 1 <= doy <= 366.
Proof. apply (dayOfYear_range 2024 12 31); lia. Defined.


(** ** isDST *)

Lemma zeller_weekday_range (year month day : Z) :
  0 <= zeller_weekday year month day <= 6.
Proof.
  unfold zeller_weekday. cbv zeta.
  match goal with
  | |- context [(?x %i 7 +i 6) %i 7] =>
      pose proof (rem_bound x 7 ltac:(lia)) as Hh;
      generalize dependent (x %i 7)
  end.
  intros h Hh.
  rewrite add_small by (apply in_int_bounds; lia).
  pose proof (rem_nonneg (h + 6) 7 ltac:(lia) ltac:(lia)). lia.
Qed.

Lemma isDST_march (year day hour : Z) :
  isDST year 3 day hour =
  (14 -i zeller_weekday year 3 day <? day)
  || ((day =? 14 -i zeller_weekday year 3 day) && (2 <=? hour)).
Proof. reflexivity. Qed.

Lemma isDST_november (year day hour : Z) :
  isDST year 11 day hour =
  (day <? 7 -i zeller_weekday year 11 day)
  || ((day =? 7 -i zeller_weekday year 11 day) && (hour <? 2)).
Proof. reflexivity. Qed.

Lemma secondSunday_eq (year day : Z) :
  14 -i zeller_weekday year 3 day = 14 - zeller_weekday year 3 day.
Proof.
  pose proof (zeller_weekday_range year 3 day).
  apply sub_small, in_int_bounds; lia.
Qed.

Lemma firstSunday_eq (year day : Z) :
  7 -i zeller_weekday year 11 day = 7 - zeller_weekday year 11 day.
Proof.
  pose proof (zeller_weekday_range year 11 day).
  apply sub_small, in_int_bounds; lia.
Qed.

(** C9.  For every year and hour, [isDST] is false when the month is 3 and
    the day is at most 7, and false when the month is 11 and the day is
    above 7: the value of [secondSunday] is always at least 8 and the value
    of [firstSunday] always at most 7. *)
Theorem isDST_false_early_march_late_november (year day hour : Z) :
  8 <= 14 -i zeller_weekday year 3 day /\
  7 -i zeller_weekday year 11 day <= 7 /\
  (day <= 7 -> isDST year 3 day hour = false) /\
  (7 < day -> isDST year 11 day hour = false).
Proof.
  pose proof (zeller_weekday_range year 3 day) as H3.
  pose proof (zeller_weekday_range year 11 day) as H11.
  rewrite isDST_march, isDST_november, secondSunday_eq, firstSunday_eq.
  split; [lia|]. split; [lia|]. split; intros Hd.
  - destruct (Z.ltb_spec (14 - zeller_weekday year 3 day) day); [lia|].
    destruct (Z.eqb_spec day (14 - zeller_weekday year 3 day)); [lia|].
    reflexivity.
  - destruct (Z.ltb_spec day (7 - zeller_weekday year 11 day)); [lia|].
    destruct (Z.eqb_spec day (7 - zeller_weekday year 11 day)); [lia|].
    reflexivity.
Qed.

Lemma isDST_false_early_march_late_november_witness :
  isDST 2025 3 7 12 = false /\ isDST 2025 11 8 0 = false.
Proof.
  split.
  - destruct (isDST_false_early_march_late_november 2025 7 12)
      as [_ [_ [H _]]].
    apply H. lia.
  - destruct (isDST_false_early_march_late_november 2025 8 0)
      as [_ [_ [_ H]]].
    apply H. lia.
Defined.

(** C6.  For every year, day and hour, [isDST] is false when the month is
    below 3 or above 11 and true when the month is in 4..10; the offset
    that [loop] passes to [computeSolar] is -6 when [isDST] is false and -5
    when it is true, so 2025-01-15 12:00:00 gives [isDST] false and
    offset -6. *)
Theorem isDST_by_month_and_offset
    (year month day hour minute second : Z) (port : SerialPort) :
  (month < 3 \/ 11 < month -> isDST year month day hour = false) /\
  (4 <= month <= 10 -> isDST year month day hour = true) /\
  handleLine year month day hour minute second port
  = (port' <- computeSolar latitude longitude
                year month day hour minute second
                (select_tz_offset year month day hour) port ;;
     Ok (println (String (Ascii.ascii_of_nat 10) "Enter next time:") port')) /\
  (isDST year month day hour = false ->
   select_tz_offset year month day hour = -6) /\
  (isDST year month day hour = true ->
   select_tz_offset year month day hour = -5) /\
  isDST 2025 1 15 12 = false /\
  select_tz_offset 2025 1 15 12 = -6.
Proof.
  split; [|split; [|split; [|split; [|split; [|split; reflexivity]]]]].
  - intros Hm. unfold isDST.
    destruct (Z.ltb_spec month 3); [reflexivity|].
    destruct (Z.ltb_spec 11 month); [reflexivity|]. lia.
  - intros Hm. unfold isDST.
    destruct (Z.ltb_spec month 3); [lia|].
    destruct (Z.ltb_spec 11 month); [lia|].
    destruct (Z.ltb_spec 3 month); [|lia].
    destruct (Z.ltb_spec month 11); [|lia].
    reflexivity.
  - reflexivity.
  - intros H. unfold select_tz_offset. rewrite H. reflexivity.
  - intros H. unfold select_tz_offset. rewrite H. reflexivity.
Qed.

Lemma isDST_by_month_and_offset_witness :
  isDST 2025 12 25 9 = false /\
  isDST 2025 6 13 22 = true /\
  select_tz_offset 2025 12 25 9 = -6 /\
  select_tz_offset 2025 6 13 22 = -5.
Proof.
  destruct (isDST_by_month_and_offset 2025 12 25 9 0 0 [])
    as [Hout [_ [_ [Hcst _]]]].
  destruct (isDST_by_month_and_offset 2025 6 13 22 14 0 [])
    as [_ [Hin [_ [_ [Hcdt _]]]]].
  split; [apply Hout; lia|].
  split; [apply Hin; lia|].
  split; [apply Hcst, Hout; lia | apply Hcdt, Hin; lia].
Defined.

(** ** The dates of the specification's rule are Sundays *)

(** Zeller's congruence of the code without the wrap, for the months 3 and
    11 of the years 0..9999. *)
Lemma zeller_weekday_exact (year month day : Z) :
  0 <= year <= 9999 -> month = 3 \/ month = 11 -> 1 <= day <= 31 ->
  zeller_weekday year month day
  = (day + (13 * (month + 1) / 5 + year mod 100 + year mod 100 / 4
            + year / 100 / 4 + 5 * (year / 100) + 6)) mod 7.
Proof.
  intros Hy Hm Hd. unfold zeller_weekday.
  assert (Hlt : (month <? 3) = false) by lia. rewrite Hlt. cbv zeta.
  rewrite (rem_small year 100) by lia.
  rewrite (div_small year 100) by lia.
  pose proof (Z.mod_pos_bound year 100 ltac:(lia)) as HK.
  assert (HJ : 0 <= year / 100 <= 99)
    by (Z.to_euclidean_division_equations; lia).
  set (K := year mod 100) in *. set (J := year / 100) in *.
  assert (HK4 : 0 <= K / 4 <= 24)
    by (Z.to_euclidean_division_equations; lia).
  assert (HJ4 : 0 <= J / 4 <= 24)
    by (Z.to_euclidean_division_equations; lia).
  rewrite (div_small K 4) by lia. rewrite (div_small J 4) by lia.
  assert (Hq : 13 *i (month +i 1) /i 5 = 13 * (month + 1) / 5).
  { destruct Hm; subst month; vm_compute; reflexivity. }
  rewrite Hq.
  assert (Hq13 : 0 <= 13 * (month + 1) / 5 <= 31).
  { destruct Hm; subst month; vm_compute; split; discriminate. }
  generalize dependent (13 * (month + 1) / 5). intros q13 _ Hq13.
  generalize dependent (K / 4). intros k4 Hk4.
  generalize dependent (J / 4). intros j4 Hj4.
  int_exact.
  rewrite (rem_small (day + q13 + K + k4 + j4 + 5 * J) 7) by lia.
  pose proof (Z.mod_pos_bound (day + q13 + K + k4 + j4 + 5 * J) 7 ltac:(lia)).
  int_exact. rewrite rem_small by lia.
  rewrite Zplus_mod_idemp_l. f_equal. ring.
Qed.

(** The date that the specification's rule derives for March is a Sunday
    among the days 8..14, the second of the month; the one for November is
    a Sunday among the days 1..7, the first. *)
Lemma spec_dates_are_sundays (year : Z) :
  0 <= year <= 9999 ->
  8 <= secondSundayOfMarch_spec year <= 14 /\
  zeller_weekday year 3 (secondSundayOfMarch_spec year) = 0 /\
  1 <= firstSundayOfNovember_spec year <= 7 /\
  zeller_weekday year 11 (firstSundayOfNovember_spec year) = 0.
Proof.
  intros Hy. unfold secondSundayOfMarch_spec, firstSundayOfNovember_spec.
  pose proof (Z.mod_pos_bound (7 - zeller_weekday year 3 1) 7 ltac:(lia)) as H3.
  pose proof (Z.mod_pos_bound (7 - zeller_weekday year 11 1) 7 ltac:(lia)) as H11.
  split; [lia|]. split; [|split; [lia|]].
  - rewrite (zeller_weekday_exact year 3 (8 + _)) by lia.
    rewrite (zeller_weekday_exact year 3 1) by lia.
    generalize (13 * (3 + 1) / 5 + year mod 100 + year mod 100 / 4
                + year / 100 / 4 + 5 * (year / 100) + 6).
    intros c. clear. Z.to_euclidean_division_equations. lia.
  - rewrite (zeller_weekday_exact year 11 (1 + _)) by lia.
    rewrite (zeller_weekday_exact year 11 1) by lia.
    generalize (13 * (11 + 1) / 5 + year mod 100 + year mod 100 / 4
                + year / 100 / 4 + 5 * (year / 100) + 6).
    intros c. clear. Z.to_euclidean_division_equations. lia.
Qed.

(** ** The DST rule at the transitions of 2025 *)

Ltac eval_weekday :=
  repeat match goal with
    | |- context [zeller_weekday ?y ?m ?d] =>
        let v := eval vm_compute in (zeller_weekday y m d) in
        change (zeller_weekday y m d) with v
    end;
  repeat match goal with
    | |- context [?a -i ?b] =>
        let v := eval vm_compute in (a -i b) in
        change (a -i b) with v
    end.

(** The weekday that [isDST] computes is right for the day it is given:
    1, 8 and 9 March 2025 are a Saturday, a Saturday and a Sunday. *)
Example zeller_weekday_march_2025 :
  map (zeller_weekday 2025 3) [1; 8; 9] = [6; 6; 0].
Proof. vm_compute. reflexivity. Qed.

Example zeller_weekday_november_2025 :
  map (zeller_weekday 2025 11) [1; 2; 3] = [6; 0; 1].
Proof. vm_compute. reflexivity. Qed.

(** What the code does on the transition days themselves.  The day of the
    change is a Sunday, so [weekday] is 0 there, [secondSunday] is 14 and
    [firstSunday] is 7: on a Sunday of March before the 14th [isDST] is
    false at every hour, and on a Sunday of November before the 7th it is
    true at every hour. *)
Lemma isDST_on_march_sunday (year day hour : Z) :
  zeller_weekday year 3 day = 0 -> day < 14 ->
  isDST year 3 day hour = false.
Proof.
  intros Hw Hd. rewrite isDST_march, secondSunday_eq, Hw. lia.
Qed.

Lemma isDST_on_november_sunday (year day hour : Z) :
  zeller_weekday year 11 day = 0 -> day < 7 ->
  isDST year 11 day hour = true.
Proof.
  intros Hw Hd. rewrite isDST_november, firstSunday_eq, Hw. lia.
Qed.

(** The defect in general: in every year whose second Sunday of March is
    not the 14th, [isDST] answers false on that Sunday at every hour, where
    the rule of the specification answers true from 2 o'clock on. *)
Lemma isDST_misses_spring_transition (year hour : Z) :
  0 <= year <= 9999 -> secondSundayOfMarch_spec year < 14 -> 2 <= hour ->
  isDST year 3 (secondSundayOfMarch_spec year) hour = false /\
  isDaylightSaving_spec year 3 (secondSundayOfMarch_spec year) hour = true.
Proof.
  intros Hy Hs Hh.
  destruct (spec_dates_are_sundays year Hy) as [_ [Hsun _]].
  split.
  - apply isDST_on_march_sunday; assumption.
  - unfold isDaylightSaving_spec. cbn [Z.ltb Z.eqb Z.compare Pos.compare
      Pos.compare_cont Pos.eqb orb andb].
    generalize (secondSundayOfMarch_spec year). intros s. lia.
Qed.

(** C1.  The second Sunday of March 2025 is the 9th and the first Sunday
    of November 2025 is the 2nd, and the rule worded by the specification
    gives: 9 March, DST iff hour >= 2; 8 March, no DST; 2 November, DST iff
    hour < 2; 3 November, no DST.  [isDST] applies Zeller's congruence to
    the day it receives instead of the first of the month and returns, for
    every hour [h]: 9 March, false; 8 March, true iff [h >= 2];
    2 November, true; 3 November, true. *)
Theorem isDST_2025_transitions (h : Z) :
  secondSundayOfMarch_spec 2025 = 9 /\
  firstSundayOfNovember_spec 2025 = 2 /\
  isDaylightSaving_spec 2025 3 9 h = (2 <=? h) /\
  isDaylightSaving_spec 2025 3 8 h = false /\
  isDaylightSaving_spec 2025 11 2 h = (h <? 2) /\
  isDaylightSaving_spec 2025 11 3 h = false /\
  isDST 2025 3 9 h = false /\
  isDST 2025 3 8 h = (2 <=? h) /\
  isDST 2025 11 2 h = true /\
  isDST 2025 11 3 h = true.
Proof.
  assert (Hs : secondSundayOfMarch_spec 2025 = 9) by (vm_compute; reflexivity).
  assert (Hf : firstSundayOfNovember_spec 2025 = 2) by (vm_compute; reflexivity).
  rewrite !isDST_march, !isDST_november.
  unfold isDaylightSaving_spec. rewrite Hs, Hf.
  eval_weekday.
  repeat split; cbn [Z.ltb Z.leb Z.eqb Z.compare Pos.compare Pos.compare_cont
                     orb andb Pos.eqb]; try reflexivity; lia.
Qed.

(** ** Real-number facts *)

Section RealFacts.

Local Open Scope R_scope.

(** Nine decimals of pi, from the series of 2 atan(1/3) + atan(1/7). *)
Lemma PI_above : 3.14159265 < PI.
Proof.
  pose proof (PI_2_3_7_ineq 4) as [H _].
  unfold PI_2_3_7_tg, tg_alt, Ratan_seq in H.
  simpl in H. lra.
Qed.

Lemma PI_below : PI < 3.1415926536.
Proof.
  pose proof (PI_2_3_7_ineq 5) as [_ H].
  unfold PI_2_3_7_tg, tg_alt, Ratan_seq in H.
  simpl in H. lra.
Qed.

(** The sum of the seven coefficients bounds the declination. *)
Lemma getDeclination_bound (gamma : R) :
  -0.488929 <= getDeclination gamma <= 0.488929.
Proof.
  unfold getDeclination.
  pose proof (COS_bound gamma). pose proof (SIN_bound gamma).
  pose proof (COS_bound (2 * gamma)). pose proof (SIN_bound (2 * gamma)).
  pose proof (COS_bound (3 * gamma)). pose proof (SIN_bound (3 * gamma)).
  lra.
Qed.

Lemma cos_getDeclination_pos (gamma : R) : 0 < cos (getDeclination gamma).
Proof.
  pose proof (getDeclination_bound gamma) as H. pose proof PI_above.
  apply cos_gt_0; lra.
Qed.

(** The argument of [asin] in [computeSolar] is a cosine of an angular
    distance: in exact arithmetic it stays in [[-1, 1]]. *)
Lemma sin_elev_bound (a b h : R) :
  -1 <= sin a * sin b + cos a * cos b * cos h <= 1.
Proof.
  pose proof (sin2_cos2 a) as Ha. pose proof (sin2_cos2 b) as Hb.
  pose proof (COS_bound h) as Hh.
  unfold Rsqr in *.
  generalize dependent (sin a). generalize dependent (cos a).
  generalize dependent (sin b). generalize dependent (cos b).
  generalize dependent (cos h).
  intros c Hc cb sb Hb ca sa Ha.
  pose proof (Rle_0_sqr (sa - sb)) as S1.
  pose proof (Rle_0_sqr (sa + sb)) as S2.
  pose proof (Rle_0_sqr (ca - cb)) as S3.
  pose proof (Rle_0_sqr (ca + cb)) as S4.
  unfold Rsqr in *.
  assert (Hp : sa * sb + ca * cb <= 1) by nra.
  assert (Hq : sa * sb - ca * cb <= 1) by nra.
  assert (Hr : -1 <= sa * sb + ca * cb) by nra.
  assert (Hs : -1 <= sa * sb - ca * cb) by nra.
  destruct (Rle_dec 0 (ca * cb)) as [Hpos | Hneg].
  - assert (- (ca * cb) <= ca * cb * c <= ca * cb) by nra. lra.
  - assert (ca * cb <= ca * cb * c <= - (ca * cb)) by nra. lra.
Qed.

(** On the branch [elevation_deg > 0], for an elevation up to 179 degrees
    (the code produces at most [PI / 2 * RAD_TO_DEG], just above 90), the
    zenith angle stays strictly inside (-PI/2, PI/2), where the cosine is
    positive: [90 * DEG_TO_RAD = 1.570796325] is below PI/2. *)
Lemma cos_zenith_pos (elevation_deg : R) :
  0 < elevation_deg <= 179 ->
  0 < cos ((90 - elevation_deg) * DEG_TO_RAD).
Proof.
  intros [Hlo Hhi]. pose proof PI_above.
  unfold DEG_TO_RAD in *.
  apply cos_gt_0; lra.
Qed.

Lemma elevation_upper (x : R) : asin x * RAD_TO_DEG <= 179.
Proof.
  pose proof (asin_bound x). pose proof PI_below. unfold RAD_TO_DEG. lra.
Qed.

End RealFacts.

(** ** The checked core agrees with the code *)

Lemma in_int_range (z : Z) : CInt.in_int z -> -2147483648 <= z <= 2147483647.
Proof. intros H; exact H. Qed.

Lemma int_chk_ok (z : Z) : CInt.in_int z -> int_chk z = Ok z.
Proof.
  intros H. apply in_int_range in H. unfold int_chk.
  change CInt.INT_MIN with (-2147483648).
  change CInt.INT_MAX with 2147483647.
  destruct (Z.leb_spec (-2147483648) z); [|lia].
  destruct (Z.leb_spec z 2147483647); [reflexivity | lia].
Qed.

Lemma add_chk_ok (a b : Z) : CInt.in_int (a + b) -> add_chk a b = Ok (a +i b).
Proof.
  intros H. unfold add_chk. rewrite (add_small a b H). exact (int_chk_ok _ H).
Qed.

Lemma sub_chk_ok (a b : Z) : CInt.in_int (a - b) -> sub_chk a b = Ok (a -i b).
Proof.
  intros H. unfold sub_chk. rewrite (sub_small a b H). exact (int_chk_ok _ H).
Qed.

Lemma mul_chk_ok (a b : Z) : CInt.in_int (a * b) -> mul_chk a b = Ok (a *i b).
Proof.
  intros H. unfold mul_chk. rewrite (mul_small a b H). exact (int_chk_ok _ H).
Qed.

(** Division by a positive constant brings an [int] closer to zero. *)
Lemma quot_bound (a b : Z) :
  0 < b -> (0 <= a -> 0 <= Z.quot a b <= a) /\ (a <= 0 -> a <= Z.quot a b <= 0).
Proof.
  intros Hb. split; intros Ha.
  - rewrite Z.quot_div_nonneg by lia.
    split; [apply Z.div_pos; lia|].
    apply Z.div_le_upper_bound; [lia | nia].
  - replace a with (- (- a)) by lia.
    rewrite Z.quot_opp_l by lia. rewrite Z.quot_div_nonneg by lia.
    assert (0 <= - a / b <= - a).
    { split; [apply Z.div_pos; lia|].
      apply Z.div_le_upper_bound; [lia | nia]. }
    lia.
Qed.

Lemma quot_in_int (a b : Z) : CInt.in_int a -> 0 < b -> CInt.in_int (Z.quot a b).
Proof.
  intros Ha Hb. apply in_int_range in Ha. apply in_int_bounds.
  destruct (quot_bound a b Hb) as [Hpos Hneg].
  destruct (Z.le_ge_cases 0 a) as [H | H]; [specialize (Hpos H) | specialize (Hneg H)];
    lia.
Qed.

Lemma div_small_signed (a b : Z) :
  CInt.in_int a -> 0 < b -> a /i b = Z.quot a b.
Proof. intros Ha Hb. apply wrap_small, quot_in_int; assumption. Qed.

Lemma div_int_ok (a b : Z) :
  CInt.in_int a -> 0 < b -> div_int a b = Ok (a /i b).
Proof.
  intros Ha Hb. unfold div_int.
  destruct (Z.eqb_spec b 0) as [E | _]; [lia|].
  rewrite (div_small_signed a b Ha Hb).
  apply int_chk_ok, quot_in_int; assumption.
Qed.

Lemma rem_int_ok (a b : Z) :
  CInt.in_int a -> 0 < b -> rem_int a b = Ok (a %i b).
Proof.
  intros Ha Hb. unfold rem_int.
  destruct (Z.eqb_spec b 0) as [E | _]; [lia|].
  rewrite int_chk_ok by (apply quot_in_int; assumption). reflexivity.
Qed.

Lemma div_float_ok (a b : R) :
  b <> 0%R -> div_float a b = Ok (a / b)%R.
Proof.
  intros Hb. unfold div_float.
  destruct (Req_dec_T b 0) as [E | _]; [contradiction | reflexivity].
Qed.

Lemma array_get_month (m : Z) :
  1 <= m <= 12 -> exists base : Z, array_get daysBeforeMonth (m -i 1) = Ok base.
Proof.
  intros Hm. each_month Hm; eexists; vm_compute; reflexivity.
Qed.

Lemma array_get_month_bound (m : Z) :
  1 <= m <= 12 ->
  exists base : Z,
    array_get daysBeforeMonth (m -i 1) = Ok base /\ 0 <= base <= 334.
Proof.
  intros Hm.
  each_month Hm; eexists; (split; [vm_compute; reflexivity | lia]).
Qed.

Lemma dayOfYear_ok (y m d : Z) :
  1 <= m <= 12 -> exists doy : Z, dayOfYear y m d = Ok doy.
Proof.
  intros Hm. destruct (array_get_month m Hm) as [base Hbase].
  unfold dayOfYear. rewrite Hbase. cbn [bind].
  match goal with |- context [if ?c then _ else _] => destruct c end;
    eexists; reflexivity.
Qed.

(** With a month of the table and a day of moderate size, the ordinal is
    the day plus at most 335, without a wrap. *)
Lemma dayOfYear_near_day (y m d : Z) :
  1 <= m <= 12 -> -1000000 <= d <= 1000000 ->
  exists doy : Z, dayOfYear y m d = Ok doy /\ d <= doy <= d + 335.
Proof.
  intros Hm Hd. destruct (array_get_month_bound m Hm) as [base [Hbase Hb]].
  unfold dayOfYear. rewrite Hbase. cbn [bind]. cbv zeta.
  match goal with |- context [if ?c then _ else _] => destruct c end;
    eexists; (split; [reflexivity | int_exact; lia]).
Qed.

Lemma dayOfYear_chk_eq (y m d : Z) :
  CInt.in_int y -> 1 <= m <= 12 -> -1000000 <= d <= 1000000 ->
  dayOfYear_chk y m d = dayOfYear y m d.
Proof.
  intros Hy Hm Hd. unfold dayOfYear_chk, dayOfYear.
  rewrite (sub_chk_ok m 1) by (apply in_int_bounds; lia). cbn [bind].
  destruct (array_get_month_bound m Hm) as [base [Hbase Hb]].
  rewrite Hbase. cbn [bind]. cbv zeta.
  assert (Hs : CInt.in_int (base + d)) by (apply in_int_bounds; lia).
  rewrite (add_chk_ok base d Hs). cbn [bind].
  rewrite !rem_int_ok by (assumption || lia). cbn [bind].
  match goal with |- context [if ?c then _ else _] => destruct c end;
    [|reflexivity].
  apply add_chk_ok. rewrite (add_small base d Hs). apply in_int_bounds. lia.
Qed.

Lemma getGamma_chk_eq (doy hour : Z) :
  -2000000 <= doy <= 2000000 -> -1000000 <= hour <= 1000000 ->
  getGamma_chk doy hour = Ok (getGamma doy hour).
Proof.
  intros Hd Hh. unfold getGamma_chk, getGamma.
  rewrite (div_float_ok (2 * Arduino_PI) 365) by lra. cbn [bind].
  rewrite (sub_chk_ok doy 1) by (apply in_int_bounds; lia). cbn [bind].
  rewrite (sub_chk_ok hour 12) by (apply in_int_bounds; lia). cbn [bind].
  rewrite div_float_ok by lra. reflexivity.
Qed.

Lemma getHourAngle_chk_eq (gamma lon : R) (hour minute second tz_offset : Z) :
  -1000000 <= hour <= 1000000 -> -1000000 <= minute <= 1000000 ->
  -1000000 <= tz_offset <= 1000000 ->
  getHourAngle_chk gamma lon hour minute second tz_offset =
  Ok (getHourAngle gamma lon hour minute second tz_offset).
Proof.
  intros Hh Hm Ht. unfold getHourAngle_chk, getHourAngle. cbv zeta.
  rewrite (mul_chk_ok 60 tz_offset) by (apply in_int_bounds; lia). cbn [bind].
  assert (H60 : CInt.in_int (hour * 60)) by (apply in_int_bounds; lia).
  rewrite (mul_chk_ok hour 60 H60). cbn [bind].
  rewrite (add_chk_ok (hour *i 60) minute)
    by (rewrite (mul_small hour 60 H60); apply in_int_bounds; lia).
  cbn [bind].
  rewrite (div_float_ok (IZR second) 60) by lra. cbn [bind].
  rewrite div_float_ok by lra. reflexivity.
Qed.

(** Zeller's congruence as [isDST] reaches it, in March and November:
    with a year that is an [int] and a day of moderate size no
    intermediate result leaves the range of [int]. *)
Lemma zeller_weekday_chk_eq (year month day : Z) :
  CInt.in_int year -> 3 <= month <= 12 -> -1000000 <= day <= 1000000 ->
  zeller_weekday_chk year month day = Ok (zeller_weekday year month day).
Proof.
  intros Hy Hm Hd. unfold zeller_weekday_chk, zeller_weekday.
  assert (Hlt : (month <? 3) = false) by lia. rewrite Hlt.
  cbn [bind]. cbv zeta.
  rewrite (rem_int_ok year 100 Hy) by lia. cbn [bind].
  rewrite (div_int_ok year 100 Hy) by lia. cbn [bind].
  pose proof (rem_bound year 100 ltac:(lia)) as HK.
  assert (HJ : -21474837 <= year /i 100 <= 21474837).
  { rewrite (div_small_signed year 100 Hy) by lia.
    apply in_int_range in Hy. clear - Hy.
    destruct (Z.le_ge_cases 0 year) as [H | H].
    - rewrite Z.quot_div_nonneg by lia.
      Z.to_euclidean_division_equations. lia.
    - replace year with (- (- year)) by lia.
      rewrite Z.quot_opp_l by lia. rewrite Z.quot_div_nonneg by lia.
      Z.to_euclidean_division_equations. lia. }
  set (K := year %i 100) in *. set (J := year /i 100) in *.
  clearbody K J.
  assert (Hm1 : CInt.in_int (month + 1)) by (apply in_int_bounds; lia).
  rewrite (add_chk_ok month 1 Hm1). cbn [bind].
  pose proof (add_small month 1 Hm1) as Em1.
  set (m1 := month +i 1) in *. clearbody m1.
  assert (Hp : CInt.in_int (13 * m1)) by (apply in_int_bounds; lia).
  rewrite (mul_chk_ok 13 m1 Hp). cbn [bind].
  pose proof (mul_small 13 m1 Hp) as Ep.
  set (p13 := 13 *i m1) in *. clearbody p13.
  assert (Hp' : CInt.in_int p13) by (apply in_int_bounds; lia).
  rewrite (div_int_ok p13 5 Hp') by lia. cbn [bind].
  assert (Hq : 0 <= p13 /i 5 <= 169).
  { rewrite (div_small_signed p13 5 Hp') by lia.
    destruct (quot_bound p13 5 ltac:(lia)) as [Hq _]. lia. }
  set (q13 := p13 /i 5) in *. clearbody q13.
  assert (HK' : CInt.in_int K) by (apply in_int_bounds; lia).
  rewrite (div_int_ok K 4 HK') by lia. cbn [bind].
  assert (HK4 : -100 < K /i 4 < 100).
  { rewrite (div_small_signed K 4 HK') by lia.
    destruct (quot_bound K 4 ltac:(lia)) as [H1 H2].
    destruct (Z.le_ge_cases 0 K) as [H | H];
      [specialize (H1 H) | specialize (H2 H)]; lia. }
  set (K4 := K /i 4) in *. clearbody K4.
  assert (HJ' : CInt.in_int J) by (apply in_int_bounds; lia).
  rewrite (div_int_ok J 4 HJ') by lia. cbn [bind].
  assert (HJ4 : -21474837 <= J /i 4 <= 21474837).
  { rewrite (div_small_signed J 4 HJ') by lia.
    destruct (quot_bound J 4 ltac:(lia)) as [H1 H2].
    destruct (Z.le_ge_cases 0 J) as [H | H];
      [specialize (H1 H) | specialize (H2 H)]; lia. }
  set (J4 := J /i 4) in *. clearbody J4.
  assert (H5 : CInt.in_int (5 * J)) by (apply in_int_bounds; lia).
  rewrite (mul_chk_ok 5 J H5). cbn [bind].
  pose proof (mul_small 5 J H5) as E5.
  set (j5 := 5 *i J) in *. clearbody j5.
  assert (H1 : CInt.in_int (day + q13)) by (apply in_int_bounds; lia).
  rewrite (add_chk_ok day q13 H1). cbn [bind].
  pose proof (add_small day q13 H1) as E1.
  set (s1 := day +i q13) in *. clearbody s1.
  assert (H2 : CInt.in_int (s1 + K)) by (apply in_int_bounds; lia).
  rewrite (add_chk_ok s1 K H2). cbn [bind].
  pose proof (add_small s1 K H2) as E2.
  set (s2 := s1 +i K) in *. clearbody s2.
  assert (H3 : CInt.in_int (s2 + K4)) by (apply in_int_bounds; lia).
  rewrite (add_chk_ok s2 K4 H3). cbn [bind].
  pose proof (add_small s2 K4 H3) as E3.
  set (s3 := s2 +i K4) in *. clearbody s3.
  assert (H4 : CInt.in_int (s3 + J4)) by (apply in_int_bounds; lia).
  rewrite (add_chk_ok s3 J4 H4). cbn [bind].
  pose proof (add_small s3 J4 H4) as E4.
  set (s4 := s3 +i J4) in *. clearbody s4.
  assert (H6 : CInt.in_int (s4 + j5)) by (apply in_int_bounds; lia).
  rewrite (add_chk_ok s4 j5 H6). cbn [bind].
  pose proof (add_small s4 j5 H6) as E6.
  set (s5 := s4 +i j5) in *. clearbody s5.
  assert (H7 : CInt.in_int s5) by (apply in_int_bounds; lia).
  rewrite (rem_int_ok s5 7 H7) by lia. cbn [bind].
  pose proof (rem_bound s5 7 ltac:(lia)) as Hh.
  set (h := s5 %i 7) in *. clearbody h.
  assert (H8 : CInt.in_int (h + 6)) by (apply in_int_bounds; lia).
  rewrite (add_chk_ok h 6 H8). cbn [bind].
  rewrite (add_small h 6 H8).
  apply rem_int_ok; [apply in_int_bounds|]; lia.
Qed.

Lemma isDST_chk_eq (year month day hour : Z) :
  CInt.in_int year -> -1000000 <= day <= 1000000 ->
  isDST_chk year month day hour = Ok (isDST year month day hour).
Proof.
  intros Hy Hd. unfold isDST_chk, isDST.
  destruct ((month <? 3) || (11 <? month)) eqn:E1; [reflexivity|].
  destruct ((3 <? month) && (month <? 11)) eqn:E2; [reflexivity|].
  rewrite (zeller_weekday_chk_eq year month day Hy) by lia.
  cbn [bind]. cbv zeta.
  pose proof (zeller_weekday_range year month day) as Hw.
  destruct (month =? 3).
  - rewrite sub_chk_ok by (apply in_int_bounds; lia). reflexivity.
  - destruct (month =? 11); [|reflexivity].
    rewrite sub_chk_ok by (apply in_int_bounds; lia). reflexivity.
Qed.

Lemma getIrradiance_chk_eq (elevation_deg : R) :
  (elevation_deg <= 179)%R ->
  getIrradiance_chk elevation_deg = Ok (getIrradiance elevation_deg).
Proof.
  intros Hhi. unfold getIrradiance_chk, getIrradiance.
  destruct (Rle_dec elevation_deg 0) as [Hle | Hgt]; [reflexivity|].
  cbv zeta. rewrite div_float_ok; [reflexivity|].
  apply Rgt_not_eq, cos_zenith_pos. lra.
Qed.

(** With a month of the table and fields of moderate size, the checked
    computation equals the code. *)
Lemma solarValues_chk_eq (lat lon : R)
    (year month day hour minute second tz_offset : Z) :
  CInt.in_int year -> 1 <= month <= 12 ->
  -1000000 <= day <= 1000000 -> -1000000 <= hour <= 1000000 ->
  -1000000 <= minute <= 1000000 -> -1000000 <= tz_offset <= 1000000 ->
  solarValues_chk lat lon year month day hour minute second tz_offset =
  solarValues lat lon year month day hour minute second tz_offset.
Proof.
  intros Hy Hm Hd Hh Hmi Ht.
  unfold solarValues_chk, solarValues.
  rewrite (dayOfYear_chk_eq year month day Hy Hm Hd).
  destruct (dayOfYear_near_day year month day Hm Hd) as [doy [Hdoy Hb]].
  rewrite Hdoy. cbn [bind].
  rewrite (getGamma_chk_eq doy hour) by lia. cbn [bind].
  rewrite (getHourAngle_chk_eq _ _ _ _ _ _ Hh Hmi Ht). cbn [bind]. cbv zeta.
  unfold tan_dom.
  destruct (Req_dec_T (cos (getDeclination (getGamma doy hour))) 0) as [E | _].
  { exfalso. pose proof (cos_getDeclination_pos (getGamma doy hour)). lra. }
  cbn [bind]. unfold fmod_dom. rewrite div_float_ok by lra.
  cbn [bind]. rewrite getIrradiance_chk_eq by apply elevation_upper.
  reflexivity.
Qed.

(** C8 (amended).  For every input whose year is an [int], whose month is
    in 1..12 and whose day, hour, minute and offset lie between -1000000
    and 1000000 (the second is any [int]), no operation of the core
    ([dayOfYear], [getGamma], [getDeclination], [getHourAngle],
    [getIrradiance], [isDST], [computeSolar]) meets an array read out of
    bounds, an [int] overflow, a division by zero or a pole of [tan]: the
    array index is in bounds, and every divisor is non-zero where it is
    used, in particular the cosine of the zenith angle in [getIrradiance]
    for an elevation up to 90 degrees; the checked core returns [Ok], as
    the code does.  ([getDeclination] has no partial operation.)  The
    bounds on the latitude and the declination are not needed.  Whether
    the argument of [asin] stays within [[-1, 1]], and whether a [float]
    result is finite, depends on the rounding of [float] and is not part
    of the statement. *)
Theorem core_meets_no_fault (lat lon : R)
    (year month day hour minute second tz_offset : Z) (port : SerialPort) :
  CInt.in_int year -> 1 <= month <= 12 ->
  -1000000 <= day <= 1000000 -> -1000000 <= hour <= 1000000 ->
  -1000000 <= minute <= 1000000 -> -1000000 <= tz_offset <= 1000000 ->
  (exists base : Z, array_get daysBeforeMonth (month -i 1) = Ok base) /\
  (exists doy : Z,
      dayOfYear_chk year month day = Ok doy /\
      dayOfYear year month day = Ok doy /\
      getGamma_chk doy hour = Ok (getGamma doy hour)) /\
  (forall gamma : R,
      getHourAngle_chk gamma lon hour minute second tz_offset =
      Ok (getHourAngle gamma lon hour minute second tz_offset)) /\
  (forall gamma : R, cos (getDeclination gamma) <> 0%R) /\
  (forall elevation_deg : R,
      (elevation_deg <= 90)%R ->
      getIrradiance_chk elevation_deg = Ok (getIrradiance elevation_deg) /\
      ((0 < elevation_deg)%R ->
       cos ((90 - elevation_deg) * DEG_TO_RAD) <> 0%R)) /\
  isDST_chk year month day hour = Ok (isDST year month day hour) /\
  (exists v : SolarOutput,
      solarValues_chk lat lon year month day hour minute second tz_offset
      = Ok v /\
      solarValues lat lon year month day hour minute second tz_offset = Ok v) /\
  (exists port' : SerialPort,
      computeSolar_chk lat lon year month day hour minute second
        tz_offset port = Ok port').
Proof.
  intros Hy Hm Hd Hh Hmi Ht.
  pose proof (solarValues_chk_eq lat lon year month day hour minute second
                tz_offset Hy Hm Hd Hh Hmi Ht) as Heq.
  assert (Hv : exists v : SolarOutput,
             solarValues lat lon year month day hour minute second tz_offset
             = Ok v).
  { destruct (dayOfYear_ok year month day Hm) as [doy Hdoy].
    unfold solarValues. rewrite Hdoy. cbn [bind]. eexists. reflexivity. }
  split; [exact (array_get_month month Hm)|].
  split.
  { destruct (dayOfYear_near_day year month day Hm Hd) as [doy [Hdoy Hb]].
    exists doy. rewrite (dayOfYear_chk_eq year month day Hy Hm Hd).
    split; [exact Hdoy|]. split; [exact Hdoy|].
    apply getGamma_chk_eq; lia. }
  split; [intros gamma; apply getHourAngle_chk_eq; assumption|].
  split.
  { intros gamma. apply Rgt_not_eq, Rlt_gt, cos_getDeclination_pos. }
  split.
  { intros e He. split.
    - apply getIrradiance_chk_eq. lra.
    - intros Hpos. apply Rgt_not_eq, cos_zenith_pos. lra. }
  split; [apply isDST_chk_eq; assumption|].
  destruct Hv as [v Hv]. split.
  - exists v. rewrite Heq. split; exact Hv.
  - unfold computeSolar_chk. rewrite Heq, Hv.
    cbn [bind]. eexists. reflexivity.
Qed.

Lemma core_meets_no_fault_witness :
  exists port' : SerialPort,
    computeSolar_chk latitude longitude 2025 6 13 22 14 0 (-5) []
    = Ok port'.
Proof.
  apply (core_meets_no_fault latitude longitude 2025 6 13 22 14 0 (-5) []);
    solve [apply in_int_bounds; lia | lia].
Defined.

(** C8, the claim as worded.  A month in 1..12 is not enough: with the
    line [2025,2,2147483647,12,0,0] (February, so the offset is -6) the sum
    [daysBeforeMonth[m - 1] + d] of [dayOfYear] is 31 + INT_MAX, a signed
    overflow; the wrapped sum that the hardware gives is negative. *)
Lemma core_overflows_on_large_day :
  isDST 2025 2 2147483647 12 = false /\
  dayOfYear_chk 2025 2 2147483647 = Fault IntOverflow /\
  dayOfYear 2025 2 2147483647 = Ok (-2147483618) /\
  computeSolar_chk latitude longitude 2025 2 2147483647 12 0 0 (-6) []
  = Fault IntOverflow.
Proof.
  assert (Hd : dayOfYear_chk 2025 2 2147483647 = Fault IntOverflow)
    by (vm_compute; reflexivity).
  split; [vm_compute; reflexivity|].
  split; [exact Hd|].
  split; [vm_compute; reflexivity|].
  unfold computeSolar_chk, solarValues_chk. rewrite Hd. reflexivity.
Qed.

(** ** computeSolar and the serial port *)

Lemma printSolar_appends (v : SolarOutput) (port : SerialPort) :
  printSolar v port = port ++ printSolar v [].
Proof.
  unfold printSolar, println, print, print_float, println_int.
  cbn [app]. rewrite <- !app_assoc. reflexivity.
Qed.

(** C7.  The solar-position computation is deterministic and stateless:
    what a call of [computeSolar] writes (elevation, azimuth, irradiance,
    offset) is fixed by its nine inputs alone, whatever was written before;
    a call only appends to the port, so two calls with the same inputs
    write the same lines twice, and the values themselves are computed
    without any state. *)
Theorem computeSolar_deterministic_stateless (lat lon : R)
    (year month day hour minute second tz_offset : Z) :
  exists written : result (list SerialItem),
    written =
      (v <- solarValues lat lon year month day hour minute second tz_offset ;;
       Ok (printSolar v [])) /\
    (forall port : SerialPort,
        computeSolar lat lon year month day hour minute second tz_offset port
        = (w <- written ;; Ok (port ++ w))) /\
    (forall port : SerialPort,
        (port1 <- computeSolar lat lon year month day hour minute second
                    tz_offset port ;;
         computeSolar lat lon year month day hour minute second
           tz_offset port1)
        = (w <- written ;; Ok (port ++ w ++ w))).
Proof.
  eexists. split; [reflexivity|].
  unfold computeSolar.
  destruct (solarValues lat lon year month day hour minute second tz_offset)
    as [v | f]; cbn [bind].
  - split; intros port.
    + rewrite printSolar_appends. reflexivity.
    + rewrite (printSolar_appends v (printSolar v port)).
      rewrite (printSolar_appends v port), <- app_assoc. reflexivity.
  - split; intros port; reflexivity.
Qed.

(** ** Numerical value of the model at the zenith *)

Section ExpBounds.

Local Open Scope R_scope.

(** Squaring a lower bound of [exp t] bounds [exp (2 t)] from below. *)
Lemma exp_double_lower (t t2 a b : R) :
  t2 = 2 * t -> 0 <= a -> a <= exp t -> b <= a * a -> b <= exp t2.
Proof.
  intros -> Ha Hle Hb.
  replace (2 * t) with (t + t) by ring. rewrite exp_plus.
  pose proof (exp_pos t). nra.
Qed.

(** From [1 + x <= exp x] at [x = -0.059 / 1024], squared ten times, each
    square rounded down to fifteen decimals. *)
Lemma exp_m0059_lower : 0.942705166771324 <= exp (-0.059).
Proof.
  assert (H0 : 0.999942382812500 <= exp (-0.059 / 1024)).
  { pose proof (exp_ineq1_le (-0.059 / 1024)). lra. }
  assert (H1 : 0.999884768944740 <= exp (-0.059 / 512)).
  { apply (exp_double_lower (-0.059 / 1024) _ 0.999942382812500);
      [lra | lra | exact H0 | lra]. }
  assert (H2 : 0.999769551167676 <= exp (-0.059 / 256)).
  { apply (exp_double_lower (-0.059 / 512) _ 0.999884768944740);
      [lra | lra | exact H1 | lra]. }
  assert (H3 : 0.999539155442016 <= exp (-0.059 / 128)).
  { apply (exp_double_lower (-0.059 / 256) _ 0.999769551167676);
      [lra | lra | exact H2 | lra]. }
  assert (H4 : 0.999078523261738 <= exp (-0.059 / 64)).
  { apply (exp_double_lower (-0.059 / 128) _ 0.999539155442016);
      [lra | lra | exact H3 | lra]. }
  assert (H5 : 0.998157895642855 <= exp (-0.059 / 32)).
  { apply (exp_double_lower (-0.059 / 64) _ 0.999078523261738);
      [lra | lra | exact H4 | lra]. }
  assert (H6 : 0.996319184634172 <= exp (-0.059 / 16)).
  { apply (exp_double_lower (-0.059 / 32) _ 0.998157895642855);
      [lra | lra | exact H5 | lra]. }
  assert (H7 : 0.992651917670101 <= exp (-0.059 / 8)).
  { apply (exp_double_lower (-0.059 / 16) _ 0.996319184634172);
      [lra | lra | exact H6 | lra]. }
  assert (H8 : 0.985357829654128 <= exp (-0.059 / 4)).
  { apply (exp_double_lower (-0.059 / 8) _ 0.992651917670101);
      [lra | lra | exact H7 | lra]. }
  assert (H9 : 0.970930052460693 <= exp (-0.059 / 2)).
  { apply (exp_double_lower (-0.059 / 4) _ 0.985357829654128);
      [lra | lra | exact H8 | lra]. }
  assert (H10 : 0.942705166771324 <= exp (-0.059)).
  { apply (exp_double_lower (-0.059 / 2) _ 0.970930052460693);
      [lra | lra | exact H9 | lra]. }
  exact H10.
Qed.

(** The same at [x = 0.059 / 256], squared eight times. *)
Lemma exp_0059_lower : 1.060768029843834 <= exp (0.059).
Proof.
  assert (H0 : 1.000230468750000 <= exp (0.059 / 256)).
  { pose proof (exp_ineq1_le (0.059 / 256)). lra. }
  assert (H1 : 1.000460990615844 <= exp (0.059 / 128)).
  { apply (exp_double_lower (0.059 / 256) _ 1.000230468750000);
      [lra | lra | exact H0 | lra]. }
  assert (H2 : 1.000922193744035 <= exp (0.059 / 64)).
  { apply (exp_double_lower (0.059 / 128) _ 1.000460990615844);
      [lra | lra | exact H1 | lra]. }
  assert (H3 : 1.001845237929371 <= exp (0.059 / 32)).
  { apply (exp_double_lower (0.059 / 64) _ 1.000922193744035);
      [lra | lra | exact H2 | lra]. }
  assert (H4 : 1.003693880761757 <= exp (0.059 / 16)).
  { apply (exp_double_lower (0.059 / 32) _ 1.001845237929371);
      [lra | lra | exact H3 | lra]. }
  assert (H5 : 1.007401406278596 <= exp (0.059 / 8)).
  { apply (exp_double_lower (0.059 / 16) _ 1.003693880761757);
      [lra | lra | exact H4 | lra]. }
  assert (H6 : 1.014857593372092 <= exp (0.059 / 4)).
  { apply (exp_double_lower (0.059 / 8) _ 1.007401406278596);
      [lra | lra | exact H5 | lra]. }
  assert (H7 : 1.029935934824994 <= exp (0.059 / 2)).
  { apply (exp_double_lower (0.059 / 4) _ 1.014857593372092);
      [lra | lra | exact H6 | lra]. }
  assert (H8 : 1.060768029843834 <= exp (0.059)).
  { apply (exp_double_lower (0.059 / 2) _ 1.029935934824994);
      [lra | lra | exact H7 | lra]. }
  exact H8.
Qed.

Lemma exp_m0059_bounds : 0.942705 < exp (-0.059) < 0.942714.
Proof.
  pose proof exp_m0059_lower as Hlo. pose proof exp_0059_lower as Hup.
  split; [lra|].
  replace (-0.059) with (- (0.059)) by lra. rewrite exp_Ropp.
  apply Rle_lt_trans with (r2 := / 1.060768029843834).
  - apply Rinv_le_contravar; lra.
  - lra.
Qed.

End ExpBounds.

(** ** getIrradiance and getHourAngle *)

(** [DEG_TO_RAD] is pi/180 to eleven decimals. *)
Lemma DEG_TO_RAD_radians :
  (DEG_TO_RAD < PI / 180 < DEG_TO_RAD + 0.00000000002)%R.
Proof.
  pose proof PI_above. pose proof PI_below. unfold DEG_TO_RAD. lra.
Qed.

Lemma getIrradiance_overhead : (getIrradiance 90 = 1098 * exp (-0.059))%R.
Proof.
  unfold getIrradiance.
  destruct (Rle_dec 90 0) as [H | _]; [lra|]. cbv zeta.
  replace ((90 - 90) * DEG_TO_RAD)%R with 0%R by ring.
  rewrite cos_0. f_equal; [ring | f_equal; field].
Qed.

(** C3 (amended).  For every elevation at most 0, [getIrradiance] returns
    exactly 0; for every elevation from 0.001 to 90 degrees it returns
    1098 * cos(zenith) * exp(-0.059 / cos(zenith)), where the zenith angle
    (90 - elevation) * DEG_TO_RAD is 90 - elevation in radians to within
    0.000000002 and has a positive cosine; in particular
    [getIrradiance 90] is 1098 * exp(-0.059), a value between 1035.09 and
    1035.10.  Elevations between 0 and 0.001 degrees are left out: there
    the zenith angle in [float] rounds to pi/2 or past it, the cosine is 0
    to rounding and may be negative, and the result of the code is not
    the real number that the formula denotes. *)
Theorem getIrradiance_haurwitz (elevation_deg : R) :
  ((elevation_deg <= 0 -> getIrradiance elevation_deg = 0) /\
   (0.001 <= elevation_deg <= 90 ->
    let zenith := (90 - elevation_deg) * DEG_TO_RAD in
    radians_spec (90 - elevation_deg) - 0.000000002 <= zenith
      <= radians_spec (90 - elevation_deg) /\
    0 < cos zenith /\
    getIrradiance elevation_deg
    = 1098 * cos zenith * exp (-0.059 / cos zenith)) /\
   getIrradiance 90 = 1098 * exp (-0.059) /\
   1035.09 < getIrradiance 90 < 1035.1)%R.
Proof.
  split; [|split; [|split]].
  - intros Hle. unfold getIrradiance.
    destruct (Rle_dec elevation_deg 0) as [_ | Hn]; [reflexivity | lra].
  - intros [Hlo Hhi]. cbv zeta.
    pose proof DEG_TO_RAD_radians as [Hd1 Hd2].
    split; [|split].
    + unfold radians_spec. split; nra.
    + apply cos_zenith_pos. lra.
    + unfold getIrradiance.
      destruct (Rle_dec elevation_deg 0) as [Hle | _]; [lra | reflexivity].
  - exact getIrradiance_overhead.
  - rewrite getIrradiance_overhead. pose proof exp_m0059_bounds. lra.
Qed.

Lemma getIrradiance_haurwitz_witness :
  (getIrradiance (-12) = 0 /\
   getIrradiance 30
   = 1098 * cos ((90 - 30) * DEG_TO_RAD)
     * exp (-0.059 / cos ((90 - 30) * DEG_TO_RAD)))%R.
Proof.
  split.
  - destruct (getIrradiance_haurwitz (-12)) as [H _]. apply H. lra.
  - destruct (getIrradiance_haurwitz 30) as [_ [H _]].
    destruct H as [_ [_ H]]; [lra | exact H].
Defined.

(** C3, the claim as worded.  The value at 90 degrees, 1098 * exp(-0.059),
    is more than 0.1 below the 1035.2 that the claim quotes: it is
    1035.09 to two decimals. *)
Lemma getIrradiance_overhead_below_quoted :
  (getIrradiance 90 = 1098 * exp (-0.059) /\
   getIrradiance 90 < 1035.2 - 0.1)%R.
Proof.
  split; [exact getIrradiance_overhead|].
  rewrite getIrradiance_overhead. pose proof exp_m0059_bounds. lra.
Qed.

(** C4.  For every gamma, longitude, hour, minute, second and offset,
    [getHourAngle] computes the equation of time in minutes as
    229.18 * (0.000075 + 0.001868 cos g - 0.032077 sin g
              - 0.014615 cos 2g - 0.040849 sin 2g),
    then the time offset eqTime + 4 * longitude - 60 * offset, then the
    true solar time hour * 60 + minute + second / 60 + timeOffset, and
    returns trueSolarTime / 4 - 180 degrees in radians.  The products
    [hour * 60 + minute] and [60 * offset] are [int] products in the code;
    where they fit an [int], the result is the degrees of the
    specification times [DEG_TO_RAD].  That constant is pi/180 cut after
    ten decimals, so the result is the angle in radians to within
    0.00000000002 per degree. *)
Theorem getHourAngle_formula (gamma lon : R)
    (hour minute second tz_offset : Z) :
  getHourAngle gamma lon hour minute second tz_offset
  = (let eqTime := eqTime_spec gamma in
     let timeOffset := eqTime + 4 * lon - IZR (60 *i tz_offset) in
     let trueSolarTime :=
       IZR (hour *i 60 +i minute) + IZR second / 60 + timeOffset in
     (trueSolarTime / 4 - 180) * DEG_TO_RAD)%R /\
  (DEG_TO_RAD < PI / 180 < DEG_TO_RAD + 0.00000000002)%R /\
  (CInt.in_int (hour * 60) -> CInt.in_int (hour * 60 + minute) ->
   CInt.in_int (60 * tz_offset) ->
   let degrees :=
     hourAngleDegrees_spec gamma lon
       (IZR hour) (IZR minute) (IZR second) (IZR tz_offset) in
   getHourAngle gamma lon hour minute second tz_offset
   = (degrees * DEG_TO_RAD)%R /\
   (Rabs (getHourAngle gamma lon hour minute second tz_offset
          - hourAngle_spec gamma lon
              (IZR hour) (IZR minute) (IZR second) (IZR tz_offset))
    <= 0.00000000002 * Rabs degrees)%R).
Proof.
  split; [reflexivity|].
  split; [exact DEG_TO_RAD_radians|].
  intros Hh Hhm Htz. cbv zeta.
  assert (E : getHourAngle gamma lon hour minute second tz_offset
              = (hourAngleDegrees_spec gamma lon
                   (IZR hour) (IZR minute) (IZR second) (IZR tz_offset)
                 * DEG_TO_RAD)%R).
  { unfold getHourAngle, hourAngleDegrees_spec, eqTime_spec. cbv zeta.
    rewrite (mul_small hour 60 Hh), (add_small (hour * 60) minute Hhm).
    rewrite (mul_small 60 tz_offset Htz).
    rewrite plus_IZR, !mult_IZR. reflexivity. }
  split; [exact E|].
  rewrite E. unfold hourAngle_spec, radians_spec.
  generalize (hourAngleDegrees_spec gamma lon
                (IZR hour) (IZR minute) (IZR second) (IZR tz_offset)).
  intros d. pose proof DEG_TO_RAD_radians as [Hd1 Hd2].
  replace (d * DEG_TO_RAD - d * (PI / 180))%R
    with ((DEG_TO_RAD - PI / 180) * d)%R by ring.
  rewrite Rabs_mult. apply Rmult_le_compat_r; [apply Rabs_pos|].
  apply Rabs_le. lra.
Qed.

Lemma getHourAngle_formula_witness :
  (getHourAngle 0 longitude 22 14 0 (-5)
   = hourAngleDegrees_spec 0 longitude 22 14 0 (-5) * DEG_TO_RAD /\
   Rabs (getHourAngle 0 longitude 22 14 0 (-5)
         - hourAngle_spec 0 longitude 22 14 0 (-5))
   <= 0.00000000002 * Rabs (hourAngleDegrees_spec 0 longitude 22 14 0 (-5)))%R.
Proof.
  destruct (getHourAngle_formula 0 longitude 22 14 0 (-5)) as [_ [_ H]].
  apply H; apply in_int_bounds; lia.
Defined.

(** ** The documented ranges of the elevation and the azimuth *)

Section DocumentedRanges.

Local Open Scope R_scope.




End DocumentedRanges.

(** * Further properties of the code *)

(** ** dayOfYear: months outside the table, and the calendar *)

Ltac eval_table :=
  repeat match goal with
    | |- context [nth ?n daysBeforeMonth ?x] =>
        let v := eval vm_compute in (nth n daysBeforeMonth x) in
        change (nth n daysBeforeMonth x) with v
    end.

Lemma array_get_outside (m : Z) :
  CInt.in_int m -> ~ 1 <= m <= 12 ->
  array_get daysBeforeMonth (m -i 1) = Fault IndexOutOfBounds.
Proof.
  intros Hin Hm. unfold array_get.
  change (Z.of_nat (List.length daysBeforeMonth)) with 12.
  assert (Hw : ~ 0 <= m -i 1 < 12).
  { unfold CInt.sub, CInt.wrap, CInt.in_int,
      CInt.INT_MIN, CInt.INT_MAX, CInt.int_bits in *.
    change (2 ^ (32 - 1)) with 2147483648 in *.
    change (2 ^ 32) with 4294967296.
    Z.to_euclidean_division_equations. lia. }
  destruct (Z.leb_spec 0 (m -i 1)); destruct (Z.ltb_spec (m -i 1) 12);
    try reflexivity; lia.
Qed.

(** X1.  [dayOfYear] checks neither the month nor the day.  For a month
    that is an [int], the array read is out of bounds, exactly when the
    month is outside 1..12; with a month of 1..12 every day is accepted,
    and a day past the end of January counts into February
    (January 31 + k and February k give the same ordinal). *)
Theorem dayOfYear_unchecked_arguments (y m d : Z) :
  CInt.in_int m ->
  (dayOfYear y m d = Fault IndexOutOfBounds <-> ~ 1 <= m <= 12) /\
  (1 <= m <= 12 -> exists doy : Z, dayOfYear y m d = Ok doy) /\
  (-1000 <= d <= 1000 -> dayOfYear y 1 (31 + d) = dayOfYear y 2 d).
Proof.
  intros Hin. split; [split|split].
  - intros Hf [Hlo Hhi].
    destruct (dayOfYear_ok y m d (conj Hlo Hhi)) as [doy Hdoy].
    rewrite Hdoy in Hf. discriminate.
  - intros Hm. unfold dayOfYear. rewrite (array_get_outside m Hin Hm).
    reflexivity.
  - apply dayOfYear_ok.
  - intros Hd. unfold dayOfYear.
    change (array_get daysBeforeMonth (1 -i 1)) with (Ok 0 : result Z).
    change (array_get daysBeforeMonth (2 -i 1)) with (Ok 31 : result Z).
    cbn [bind Z.ltb Z.compare Pos.compare Pos.compare_cont andb].
    rewrite !add_small by (apply in_int_bounds; lia). reflexivity.
Qed.

Lemma dayOfYear_unchecked_arguments_witness :
  dayOfYear 2025 13 1 = Fault IndexOutOfBounds /\
  dayOfYear 2025 0 1 = Fault IndexOutOfBounds /\
  (exists doy : Z, dayOfYear 2025 2 31 = Ok doy) /\
  dayOfYear 2025 1 (31 + 1) = dayOfYear 2025 2 1.
Proof.
  assert (H13 : CInt.in_int 13) by (apply in_int_bounds; lia).
  assert (H0 : CInt.in_int 0) by (apply in_int_bounds; lia).
  assert (H2 : CInt.in_int 2) by (apply in_int_bounds; lia).
  destruct (dayOfYear_unchecked_arguments 2025 13 1 H13) as [[_ F13] _].
  destruct (dayOfYear_unchecked_arguments 2025 0 1 H0) as [[_ F0] _].
  destruct (dayOfYear_unchecked_arguments 2025 2 31 H2) as [_ [Hok _]].
  destruct (dayOfYear_unchecked_arguments 2025 2 1 H2) as [_ [_ Hroll]].
  split; [apply F13; lia|]. split; [apply F0; lia|].
  split; [apply Hok; lia | apply Hroll; lia].
Defined.

Lemma daysInMonth_range (y m : Z) : 28 <= daysInMonth y m <= 31.
Proof.
  unfold daysInMonth.
  destruct (m =? 2); [destruct (gregorian_leap y); lia|].
  destruct ((m =? 4) || (m =? 6) || (m =? 9) || (m =? 11)); lia.
Qed.

Lemma dayOfYear_valid (y m d : Z) :
  1 <= m <= 12 -> 1 <= d <= daysInMonth y m ->
  dayOfYear y m d =
  Ok (nth (Z.to_nat (m - 1)) daysBeforeMonth 0 + d
      + (if (2 <? m) && gregorian_leap y then 1 else 0)).
Proof.
  intros Hm Hd. pose proof (daysInMonth_range y m).
  apply dayOfYear_eq; lia.
Qed.

(** X2.  [dayOfYear] counts the days of the year without a gap: 1 January
    is day 1; within a month the next day has the next ordinal; the first
    of the next month follows the last day of a month, February having 29
    days in a leap year; and 31 December is day 365, or 366 in a leap
    year. *)
Theorem dayOfYear_counts_every_day (y m d : Z) :
  1 <= m <= 12 -> 1 <= d <= daysInMonth y m ->
  exists doy : Z,
    dayOfYear y m d = Ok doy /\
    dayOfYear y 1 1 = Ok 1 /\
    (d < daysInMonth y m -> dayOfYear y m (d + 1) = Ok (doy + 1)) /\
    (d = daysInMonth y m -> m < 12 -> dayOfYear y (m + 1) 1 = Ok (doy + 1)) /\
    (d = daysInMonth y m -> m = 12 ->
     doy = if gregorian_leap y then 366 else 365).
Proof.
  intros Hm Hd. pose proof (daysInMonth_range y m) as Hr.
  rewrite (dayOfYear_valid y m d Hm Hd). eexists. split; [reflexivity|].
  split; [reflexivity|]. split; [|split].
  - intros Hlt. rewrite (dayOfYear_valid y m (d + 1)) by lia. f_equal. lia.
  - intros -> Hlt.
    rewrite (dayOfYear_eq y (m + 1) 1) by lia. f_equal.
    unfold daysInMonth. clear Hd Hr.
    assert (Hc : 1 <= m <= 11) by lia. clear Hm Hlt.
    assert (Hm' : m = 1 \/ m = 2 \/ m = 3 \/ m = 4 \/ m = 5 \/ m = 6 \/
                  m = 7 \/ m = 8 \/ m = 9 \/ m = 10 \/ m = 11) by lia.
    repeat (destruct Hm' as [Hm' | Hm']); subst m;
      cbn [Z.add Z.sub Z.opp Z.pos_sub Pos.add Pos.succ Pos.pred_double
           Z.succ_double Z.pred_double Z.double Z.to_nat Pos.to_nat
           Pos.iter_op Init.Nat.add Z.eqb Pos.eqb Z.ltb Z.compare Pos.compare
           Pos.compare_cont orb andb];
      eval_table; destruct (gregorian_leap y); reflexivity.
  - intros -> ->. unfold daysInMonth.
    cbn [Z.eqb Pos.eqb orb Z.ltb Z.compare Pos.compare Pos.compare_cont andb].
    eval_table. destruct (gregorian_leap y); reflexivity.
Qed.

Lemma dayOfYear_counts_every_day_witness :
  exists doy : Z,
    dayOfYear 2024 2 29 = Ok doy /\ dayOfYear 2024 3 1 = Ok (doy + 1).
Proof.
  destruct (dayOfYear_counts_every_day 2024 2 29) as [doy [H [_ [_ [Hn _]]]]];
    [lia | vm_compute; split; discriminate |].
  exists doy. split; [exact H|]. apply Hn; [reflexivity | lia].
Defined.

(** X3.  On the dates of the calendar [dayOfYear] is strictly increasing:
    a later date of the same year has a larger ordinal, so two dates with
    the same ordinal are the same date. *)
Theorem dayOfYear_orders_dates (y m1 d1 m2 d2 : Z) :
  1 <= m1 <= 12 -> 1 <= d1 <= daysInMonth y m1 ->
  1 <= m2 <= 12 -> 1 <= d2 <= daysInMonth y m2 ->
  exists doy1 doy2 : Z,
    dayOfYear y m1 d1 = Ok doy1 /\
    dayOfYear y m2 d2 = Ok doy2 /\
    (doy1 < doy2 <-> m1 < m2 \/ (m1 = m2 /\ d1 < d2)) /\
    (doy1 = doy2 <-> m1 = m2 /\ d1 = d2).
Proof.
  intros Hm1 Hd1 Hm2 Hd2.
  rewrite (dayOfYear_valid y m1 d1 Hm1 Hd1), (dayOfYear_valid y m2 d2 Hm2 Hd2).
  do 2 eexists. split; [reflexivity|]. split; [reflexivity|].
  unfold daysInMonth in *.
  remember (gregorian_leap y) as leap eqn:Hleap. clear Hleap.
  each_month Hm1; each_month Hm2;
    cbn [Z.sub Z.add Z.opp Z.pos_sub Pos.pred_double Z.to_nat Pos.to_nat
         Pos.iter_op Init.Nat.add Z.eqb Pos.eqb Z.ltb Z.compare Pos.compare
         Pos.compare_cont orb andb] in *;
    eval_table; destruct leap; lia.
Qed.

Lemma dayOfYear_orders_dates_witness :
  exists doy1 doy2 : Z,
    dayOfYear 2024 2 29 = Ok doy1 /\ dayOfYear 2024 3 1 = Ok doy2 /\
    doy1 < doy2.
Proof.
  destruct (dayOfYear_orders_dates 2024 2 29 3 1)
    as [doy1 [doy2 [H1 [H2 [Hlt _]]]]];
    [lia | vm_compute; split; discriminate | lia
     | vm_compute; split; discriminate |].
  exists doy1, doy2. split; [exact H1|]. split; [exact H2|].
  apply Hlt. left. lia.
Defined.

(** ** isDST: where the answer is fixed, and where it goes wrong *)

(** X4.  In March [isDST] is true on every day after the 14th, whatever
    the year and the hour, and in both transition months the hour counts
    on one day only, the day equal to the computed Sunday. *)
Theorem isDST_late_march_and_hour (year day hour hour' : Z) :
  (14 < day -> isDST year 3 day hour = true) /\
  (day <> 14 - zeller_weekday year 3 day ->
   isDST year 3 day hour = isDST year 3 day hour') /\
  (day <> 7 - zeller_weekday year 11 day ->
   isDST year 11 day hour = isDST year 11 day hour').
Proof.
  pose proof (zeller_weekday_range year 3 day) as H3.
  pose proof (zeller_weekday_range year 11 day) as H11.
  rewrite !isDST_march, !isDST_november, !secondSunday_eq, !firstSunday_eq.
  split; [|split]; intros Hd.
  - destruct (Z.ltb_spec (14 - zeller_weekday year 3 day) day);
      [reflexivity | lia].
  - destruct (Z.eqb_spec day (14 - zeller_weekday year 3 day));
      [contradiction | reflexivity].
  - destruct (Z.eqb_spec day (7 - zeller_weekday year 11 day));
      [contradiction | reflexivity].
Qed.

Lemma isDST_late_march_and_hour_witness :
  isDST 2025 3 15 0 = true /\
  isDST 2025 3 10 0 = isDST 2025 3 10 23 /\
  isDST 2025 11 5 0 = isDST 2025 11 5 23.
Proof.
  destruct (isDST_late_march_and_hour 2025 15 0 0) as [H _].
  destruct (isDST_late_march_and_hour 2025 10 0 23) as [_ [Hm _]].
  destruct (isDST_late_march_and_hour 2025 5 0 23) as [_ [_ Hn]].
  split; [apply H; lia|].
  split; [apply Hm | apply Hn]; vm_compute; discriminate.
Defined.

(** X5.  What [isDST] answers on a Sunday of a transition month, the day
    for which [weekday] is 0.  On a Sunday of March before the 14th it is
    false at every hour and on the 14th it is true from 2 o'clock; on a
    Sunday of November before the 7th it is true at every hour and on the
    7th it is true before 2 o'clock.  So the change of time is placed
    right only when it falls on the latest date it can have. *)
Theorem isDST_on_transition_sundays (year day hour : Z) :
  (zeller_weekday year 3 day = 0 ->
   (day < 14 -> isDST year 3 day hour = false) /\
   (day = 14 -> isDST year 3 day hour = (2 <=? hour))) /\
  (zeller_weekday year 11 day = 0 ->
   (day < 7 -> isDST year 11 day hour = true) /\
   (day = 7 -> isDST year 11 day hour = (hour <? 2))).
Proof.
  split; intros Hw.
  - split; intros Hd.
    + apply isDST_on_march_sunday; assumption.
    + rewrite isDST_march, secondSunday_eq, Hw. subst day.
      change (14 - 0) with 14. rewrite Z.ltb_irrefl, Z.eqb_refl. reflexivity.
  - split; intros Hd.
    + apply isDST_on_november_sunday; assumption.
    + rewrite isDST_november, firstSunday_eq, Hw. subst day.
      change (7 - 0) with 7. rewrite Z.ltb_irrefl, Z.eqb_refl. reflexivity.
Qed.

Lemma isDST_on_transition_sundays_witness :
  isDST 2025 3 9 12 = false /\ isDST 2021 3 14 12 = (2 <=? 12) /\
  isDST 2025 11 2 12 = true /\ isDST 2021 11 7 12 = (12 <? 2).
Proof.
  destruct (isDST_on_transition_sundays 2025 9 12) as [Hm _].
  destruct (isDST_on_transition_sundays 2021 14 12) as [Hm' _].
  destruct (isDST_on_transition_sundays 2025 2 12) as [_ Hn].
  destruct (isDST_on_transition_sundays 2021 7 12) as [_ Hn'].
  split; [apply Hm; [reflexivity | lia]|].
  split; [apply Hm'; reflexivity|].
  split; [apply Hn; [reflexivity | lia] | apply Hn'; reflexivity].
Defined.

(** X6.  Outside the second week of March and the first week of November
    [isDST] agrees with the rule of the specification, for every year,
    day and hour: the two differ only on 8..14 March and 1..7 November. *)
Theorem isDST_agrees_outside_transition_weeks (year month day hour : Z) :
  ~ (month = 3 /\ 8 <= day <= 14) ->
  ~ (month = 11 /\ 1 <= day <= 7) ->
  isDST year month day hour = isDaylightSaving_spec year month day hour.
Proof.
  intros Hmar Hnov.
  pose proof (zeller_weekday_range year 3 day) as H3.
  pose proof (zeller_weekday_range year 11 day) as H11.
  pose proof (Z.mod_pos_bound (7 - zeller_weekday year 3 1) 7 ltac:(lia)) as S3.
  pose proof (Z.mod_pos_bound (7 - zeller_weekday year 11 1) 7 ltac:(lia))
    as S11.
  destruct (Z.eq_dec month 3) as [-> | Hn3].
  { rewrite isDST_march, secondSunday_eq. unfold isDaylightSaving_spec.
    cbn [Z.ltb Z.eqb Z.compare Pos.compare Pos.compare_cont Pos.eqb orb andb].
    unfold secondSundayOfMarch_spec.
    generalize dependent (zeller_weekday year 3 day).
    generalize dependent ((7 - zeller_weekday year 3 1) mod 7).
    intros s Hs w Hw. lia. }
  destruct (Z.eq_dec month 11) as [-> | Hn11].
  { rewrite isDST_november, firstSunday_eq. unfold isDaylightSaving_spec.
    cbn [Z.ltb Z.eqb Z.compare Pos.compare Pos.compare_cont Pos.eqb orb andb].
    unfold firstSundayOfNovember_spec.
    generalize dependent (zeller_weekday year 11 day).
    generalize dependent ((7 - zeller_weekday year 11 1) mod 7).
    intros s Hs w Hw. lia. }
  unfold isDST, isDaylightSaving_spec.
  destruct ((month <? 3) || (11 <? month)) eqn:E1; [reflexivity|].
  destruct ((3 <? month) && (month <? 11)) eqn:E2; [reflexivity|].
  lia.
Qed.

Lemma isDST_agrees_outside_transition_weeks_witness :
  isDST 2025 3 20 1 = isDaylightSaving_spec 2025 3 20 1.
Proof.
  apply (isDST_agrees_outside_transition_weeks 2025 3 20 1); lia.
Defined.

(** X7.  The weekday that [isDST] computes by Zeller's congruence is
    consistent with the calendar for the years 0..9998: it advances by
    one from a day to the next, a day of November has the weekday of the
    same day of March (245 days earlier), and from a year to the next the
    weekday of a date of March or November advances by one, or by two
    when the February in between has 29 days.  With 1 March 2000 given as
    a Wednesday (3, for 0 = Sunday), this fixes every value. *)
Theorem zeller_weekday_follows_calendar (year month day : Z) :
  0 <= year <= 9998 -> month = 3 \/ month = 11 -> 1 <= day <= 30 ->
  zeller_weekday 2000 3 1 = 3 /\
  zeller_weekday year month (day + 1)
  = (zeller_weekday year month day + 1) mod 7 /\
  zeller_weekday year 11 day = zeller_weekday year 3 day /\
  zeller_weekday (year + 1) month day
  = (zeller_weekday year month day + 1
     + (if gregorian_leap (year + 1) then 1 else 0)) mod 7.
Proof.
  intros Hy Hm Hd. split; [vm_compute; reflexivity|].
  rewrite !(zeller_weekday_exact year) by lia.
  rewrite !(zeller_weekday_exact (year + 1)) by lia.
  assert (Hq : 13 * (month + 1) / 5 mod 7 = 3).
  { destruct Hm; subst month; reflexivity. }
  change (13 * (3 + 1) / 5) with 10. change (13 * (11 + 1) / 5) with 31.
  split; [|split].
  - clear Hq. Z.to_euclidean_division_equations. lia.
  - clear Hq. Z.to_euclidean_division_equations. lia.
  - unfold gregorian_leap.
    generalize dependent (13 * (month + 1) / 5). intros q Hq. clear Hm.
    destruct (Z.eqb_spec ((year + 1) mod 4) 0);
      destruct (Z.eqb_spec ((year + 1) mod 100) 0);
      destruct (Z.eqb_spec ((year + 1) mod 400) 0);
      cbn [negb orb andb];
      Z.to_euclidean_division_equations; lia.
Qed.

Lemma zeller_weekday_follows_calendar_witness :
  zeller_weekday 2025 3 (8 + 1) = (zeller_weekday 2025 3 8 + 1) mod 7 /\
  zeller_weekday 2025 11 8 = zeller_weekday 2025 3 8 /\
  zeller_weekday (2023 + 1) 3 8 = (zeller_weekday 2023 3 8 + 1 + 1) mod 7.
Proof.
  destruct (zeller_weekday_follows_calendar 2025 3 8) as [_ [Hd [Hn _]]];
    [lia | lia | lia |].
  destruct (zeller_weekday_follows_calendar 2023 3 8) as [_ [_ [_ Hy]]];
    [lia | lia | lia |].
  split; [exact Hd|]. split; [exact Hn | exact Hy].
Defined.

(** ** getGamma and getDeclination *)

Section GeometryFacts.

Local Open Scope R_scope.

Lemma trig_shift (x : R) (k : nat) (y : R) :
  y = x + 2 * INR k * PI -> cos y = cos x /\ sin y = sin x.
Proof. intros ->. split; [apply cos_period | apply sin_period]. Qed.

Lemma getDeclination_period (gamma : R) :
  getDeclination (gamma + 2 * PI) = getDeclination gamma.
Proof.
  unfold getDeclination.
  destruct (trig_shift gamma 1 (gamma + 2 * PI)) as [-> ->];
    [simpl; ring|].
  destruct (trig_shift (2 * gamma) 2 (2 * (gamma + 2 * PI))) as [-> ->];
    [simpl; ring|].
  destruct (trig_shift (3 * gamma) 3 (3 * (gamma + 2 * PI))) as [-> ->];
    [simpl; ring|].
  reflexivity.
Qed.

Lemma getHourAngle_period (gamma lon : R) (hour minute second tz_offset : Z) :
  getHourAngle (gamma + 2 * PI) lon hour minute second tz_offset
  = getHourAngle gamma lon hour minute second tz_offset.
Proof.
  unfold getHourAngle.
  destruct (trig_shift gamma 1 (gamma + 2 * PI)) as [-> ->];
    [simpl; ring|].
  destruct (trig_shift (2 * gamma) 2 (2 * (gamma + 2 * PI))) as [-> ->];
    [simpl; ring|].
  reflexivity.
Qed.

Lemma sin_between (x : R) :
  - PI <= x <= PI -> (0 <= x -> 0 <= sin x <= x) /\ (x <= 0 -> x <= sin x <= 0).
Proof.
  intros [Hlo Hhi]. split; intros Hx.
  - split; [apply sin_ge_0; lra|].
    destruct Hx as [Hx | <-]; [left; apply sin_lt_x; exact Hx|].
    rewrite sin_0. lra.
  - assert (H : 0 <= sin (- x) <= - x).
    { split; [apply sin_ge_0; lra|].
      destruct Hx as [Hx | ->]; [left; apply sin_lt_x; lra|].
      rewrite Ropp_0, sin_0. lra. }
    rewrite sin_neg in H. lra.
Qed.

(** [cos x >= 1 - x^2 / 2], from [cos x = 1 - 2 sin^2 (x/2)]. *)
Lemma cos_above_parabola (x : R) :
  - PI <= x <= PI -> 1 - x * x / 2 <= cos x.
Proof.
  intros Hx. replace x with (2 * (x / 2)) at 3 by field.
  rewrite cos_2a_sin.
  pose proof PI_RGT_0.
  destruct (sin_between (x / 2) ltac:(lra)) as [Hp Hn].
  destruct (Rle_dec 0 x) as [H0 | H0].
  - specialize (Hp ltac:(lra)). nra.
  - specialize (Hn ltac:(lra)). nra.
Qed.

(** X8.  The declination is bounded by the sum of its seven coefficients,
    0.488929 rad (28.02 degrees), for every gamma: it stays strictly
    inside (-PI/2, PI/2), its cosine is above 0.88 and the tangent taken
    in [computeSolar] is finite, below 0.556 in absolute value. *)
Theorem getDeclination_bounded (gamma : R) :
  -0.488929 <= getDeclination gamma <= 0.488929 /\
  - (PI / 2) < getDeclination gamma < PI / 2 /\
  0.88 < cos (getDeclination gamma) /\
  -0.556 < tan (getDeclination gamma) < 0.556.
Proof.
  pose proof (getDeclination_bound gamma) as Hb.
  pose proof PI_above as Hpi.
  set (decl := getDeclination gamma) in *.
  assert (Hc : 0.88 < cos decl).
  { pose proof (cos_above_parabola decl ltac:(lra)). nra. }
  split; [exact Hb|]. split; [lra|]. split; [exact Hc|].
  destruct (sin_between decl ltac:(lra)) as [Hp Hn].
  unfold tan, Rdiv.
  assert (Hi : 0 < / cos decl < / 0.88).
  { split; [apply Rinv_0_lt_compat; lra|].
    apply Rinv_lt_contravar; [nra | exact Hc]. }
  assert (Hi' : / 0.88 < 1.1364) by lra.
  destruct (Rle_dec 0 decl) as [H0 | H0].
  - specialize (Hp H0). nra.
  - specialize (Hn ltac:(lra)). nra.
Qed.

(** X9.  The model's year has exactly 365 days: for a day of the year in
    1..366 and an hour in 0..23, moving 365 days on adds 2 PI to gamma and
    changes neither the declination nor the hour angle (so day 366 of a
    leap year has the values of 1 January), and 24 hours more are the
    next day. *)
Theorem getGamma_year_of_365_days (doy hour : Z) (lon : R)
    (minute second tz_offset : Z) :
  (1 <= doy <= 366)%Z -> (0 <= hour <= 23)%Z ->
  getGamma (doy + 365) hour = getGamma doy hour + 2 * PI /\
  getDeclination (getGamma (doy + 365) hour)
  = getDeclination (getGamma doy hour) /\
  getHourAngle (getGamma (doy + 365) hour) lon hour minute second tz_offset
  = getHourAngle (getGamma doy hour) lon hour minute second tz_offset /\
  getGamma doy (hour + 24) = getGamma (doy + 1) hour.
Proof.
  intros Hd Hh.
  assert (Hg : getGamma (doy + 365) hour = getGamma doy hour + 2 * PI).
  { unfold getGamma, Arduino_PI.
    rewrite !sub_small by (apply in_int_bounds; lia).
    rewrite !minus_IZR, plus_IZR. field. }
  split; [exact Hg|]. rewrite Hg.
  split; [apply getDeclination_period|].
  split; [apply getHourAngle_period|].
  unfold getGamma, Arduino_PI.
  rewrite !sub_small by (apply in_int_bounds; lia).
  rewrite !minus_IZR, !plus_IZR. field.
Qed.

Lemma getGamma_year_of_365_days_witness :
  getDeclination (getGamma (1 + 365) 12) = getDeclination (getGamma 1 12).
Proof.
  apply (getGamma_year_of_365_days 1 12 longitude 0 0 (-6)); lia.
Defined.

End GeometryFacts.

(** ** getHourAngle *)

Section HourAngleFacts.

Local Open Scope R_scope.

(** The hour angle with the [int] products replaced by exact ones. *)
Lemma getHourAngle_exact (gamma lon : R) (hour minute second tz_offset : Z) :
  (-100000 <= hour <= 100000)%Z -> (-100000 <= minute <= 100000)%Z ->
  (-100000 <= tz_offset <= 100000)%Z ->
  getHourAngle gamma lon hour minute second tz_offset
  = ((IZR hour * 60 + IZR minute + IZR second / 60
      + (eqTime_spec gamma + 4 * lon - 60 * IZR tz_offset)) / 4 - 180)
    * DEG_TO_RAD.
Proof.
  intros Hh Hm Ht. unfold getHourAngle, eqTime_spec. cbv zeta.
  rewrite (mul_small hour 60) by (apply in_int_bounds; lia).
  rewrite (add_small (hour * 60) minute) by (apply in_int_bounds; lia).
  rewrite (mul_small 60 tz_offset) by (apply in_int_bounds; lia).
  rewrite plus_IZR, !mult_IZR. reflexivity.
Qed.

(** X10.  At a given gamma the hour angle depends on the instant only:
    one hour more on the clock adds 15 degrees ([15 * DEG_TO_RAD]); one
    hour more on the clock with one more in the offset leaves it
    unchanged; 15 degrees of longitude to the east count as one hour, and
    60 seconds as one minute.  (Hours, minutes and offset within
    -1000..1000, far from an [int] overflow.) *)
Theorem getHourAngle_time_shifts (gamma lon : R)
    (hour minute second tz_offset : Z) :
  (-1000 <= hour <= 1000)%Z -> (-1000 <= minute <= 1000)%Z ->
  (-1000 <= tz_offset <= 1000)%Z ->
  getHourAngle gamma lon (hour + 1) minute second tz_offset
  = getHourAngle gamma lon hour minute second tz_offset + 15 * DEG_TO_RAD /\
  getHourAngle gamma lon (hour + 1) minute second (tz_offset + 1)
  = getHourAngle gamma lon hour minute second tz_offset /\
  getHourAngle gamma (lon + 15) hour minute second tz_offset
  = getHourAngle gamma lon (hour + 1) minute second tz_offset /\
  getHourAngle gamma lon hour minute (second + 60) tz_offset
  = getHourAngle gamma lon hour (minute + 1) second tz_offset.
Proof.
  intros Hh Hm Ht.
  rewrite !getHourAngle_exact by lia.
  rewrite !plus_IZR. repeat split; field.
Qed.

Lemma getHourAngle_time_shifts_witness :
  getHourAngle 0 longitude (12 + 1) 0 0 (-6 + 1)
  = getHourAngle 0 longitude 12 0 0 (-6).
Proof.
  apply (getHourAngle_time_shifts 0 longitude 12 0 0 (-6)); lia.
Defined.

Lemma eqTime_spec_bound (gamma : R) : -20.51 < eqTime_spec gamma < 20.51.
Proof.
  unfold eqTime_spec.
  pose proof (COS_bound gamma). pose proof (SIN_bound gamma).
  pose proof (COS_bound (2 * gamma)). pose proof (SIN_bound (2 * gamma)).
  lra.
Qed.

(** X11.  The equation-of-time term never moves the true solar time by
    more than 20.51 minutes: for every gamma the hour angle is within
    20.51 / 4 degrees (in radians) of the one of the mean solar time
    [hour * 60 + minute + second / 60 + 4 * lon - 60 * tz_offset].
    (Hours, minutes and offset within -1000..1000.) *)
Theorem getHourAngle_near_mean_time (gamma lon : R)
    (hour minute second tz_offset : Z) :
  (-1000 <= hour <= 1000)%Z -> (-1000 <= minute <= 1000)%Z ->
  (-1000 <= tz_offset <= 1000)%Z ->
  let mean_time :=
    IZR hour * 60 + IZR minute + IZR second / 60
    + 4 * lon - 60 * IZR tz_offset in
  Rabs (getHourAngle gamma lon hour minute second tz_offset
        - (mean_time / 4 - 180) * DEG_TO_RAD)
  < 20.51 / 4 * DEG_TO_RAD.
Proof.
  intros Hh Hm Ht mean_time. subst mean_time.
  rewrite getHourAngle_exact by lia.
  pose proof (eqTime_spec_bound gamma) as He.
  generalize dependent (eqTime_spec gamma). intros e He.
  unfold DEG_TO_RAD.
  apply Rabs_def1; lra.
Qed.

Lemma getHourAngle_near_mean_time_witness :
  Rabs (getHourAngle 1 longitude 12 30 0 (-6)
        - ((IZR 12 * 60 + IZR 30 + IZR 0 / 60
            + 4 * longitude - 60 * IZR (-6)) / 4 - 180) * DEG_TO_RAD)
  < 20.51 / 4 * DEG_TO_RAD.
Proof.
  apply (getHourAngle_near_mean_time 1 longitude 12 30 0 (-6)); lia.
Defined.

End HourAngleFacts.

(** ** getIrradiance *)

Section IrradianceFacts.

Local Open Scope R_scope.

Lemma zenith_in_first_quadrant (e : R) :
  0 < e <= 90 -> 0 <= (90 - e) * DEG_TO_RAD < PI / 2.
Proof.
  intros He. pose proof PI_above. unfold DEG_TO_RAD. lra.
Qed.

Lemma exp_le (x y : R) : x <= y -> exp x <= exp y.
Proof.
  intros [H | ->]; [left; apply exp_increasing; exact H | right; reflexivity].
Qed.

(** The Haurwitz expression grows with the cosine of the zenith angle. *)
Lemma haurwitz_increasing (c1 c2 : R) :
  0 < c1 <= c2 ->
  1098 * c1 * exp (-0.059 / c1) <= 1098 * c2 * exp (-0.059 / c2).
Proof.
  intros [H1 H12].
  assert (Hinv : / c2 <= / c1) by (apply Rinv_le_contravar; assumption).
  assert (He : exp (-0.059 / c1) <= exp (-0.059 / c2)).
  { apply exp_le. unfold Rdiv. nra. }
  pose proof (exp_pos (-0.059 / c1)). pose proof (exp_pos (-0.059 / c2)).
  nra.
Qed.

(** The range of the model, at and below the horizon and from 0.001
    degrees upward. *)
Lemma getIrradiance_range (elevation_deg : R) :
  elevation_deg <= 0 \/ 0.001 <= elevation_deg <= 90 ->
  0 <= getIrradiance elevation_deg <= 1098 * exp (-0.059).
Proof.
  intros He. pose proof exp_m0059_bounds as Hexp.
  unfold getIrradiance.
  destruct (Rle_dec elevation_deg 0) as [Hle | Hgt]; [lra|].
  cbv zeta.
  assert (Hc : 0 < cos ((90 - elevation_deg) * DEG_TO_RAD))
    by (apply cos_zenith_pos; lra).
  pose proof (COS_bound ((90 - elevation_deg) * DEG_TO_RAD)) as [_ Hc1].
  pose proof (haurwitz_increasing _ 1 (conj Hc Hc1)) as Hinc.
  replace (-0.059 / 1) with (-0.059) in Hinc by field.
  set (c := cos ((90 - elevation_deg) * DEG_TO_RAD)) in *.
  pose proof (exp_pos (-0.059 / c)) as Hpos.
  assert (Hprod : 0 < 1098 * c * exp (-0.059 / c)) by nra.
  lra.
Qed.

(** X12.  For an elevation at most 0, or from 0.001 to 90 degrees, the
    irradiance is at least 0 and at most the value at the zenith,
    1098 * exp(-0.059), which is below 1035.1 W/m2; at most 0 degrees it
    is 0.  (Between 0 and 0.001 degrees the zenith angle in [float]
    rounds to pi/2 or past it; these elevations are left out.) *)
Theorem getIrradiance_bounds (elevation_deg : R) :
  elevation_deg <= 0 \/ 0.001 <= elevation_deg <= 90 ->
  0 <= getIrradiance elevation_deg <= getIrradiance 90 /\
  getIrradiance elevation_deg < 1035.1 /\
  (elevation_deg <= 0 -> getIrradiance elevation_deg = 0).
Proof.
  intros He. pose proof exp_m0059_bounds as Hexp.
  rewrite getIrradiance_overhead.
  pose proof (getIrradiance_range elevation_deg He) as Hr.
  split; [exact Hr|]. split; [lra|].
  intros Hle. unfold getIrradiance.
  destruct (Rle_dec elevation_deg 0) as [_ | Hn]; [reflexivity | lra].
Qed.

Lemma getIrradiance_bounds_witness :
  0 <= getIrradiance 45 <= getIrradiance 90 /\ getIrradiance 45 < 1035.1.
Proof.
  destruct (getIrradiance_bounds 45) as [H1 [H2 _]]; [lra|].
  split; [exact H1 | exact H2].
Defined.

(** X13.  Over the elevations at most 0 and those from 0.001 to 90
    degrees the irradiance grows with the elevation: a higher sun never
    gives less.  (Elevations between 0 and 0.001 degrees are left out, as
    above.) *)
Theorem getIrradiance_monotone (e1 e2 : R) :
  e1 <= 0 \/ 0.001 <= e1 -> e2 <= 0 \/ 0.001 <= e2 ->
  e1 <= e2 -> e2 <= 90 -> getIrradiance e1 <= getIrradiance e2.
Proof.
  intros H1 H2 H12 H90.
  destruct (Rle_dec e1 0) as [Hle | Hgt].
  - assert (E : getIrradiance e1 = 0).
    { unfold getIrradiance.
      destruct (Rle_dec e1 0) as [_ | Hn]; [reflexivity | contradiction]. }
    rewrite E.
    assert (Hd : e2 <= 0 \/ 0.001 <= e2 <= 90) by lra.
    destruct (getIrradiance_range e2 Hd) as [Hpos _]. exact Hpos.
  - unfold getIrradiance.
    destruct (Rle_dec e1 0) as [Hle | _]; [contradiction|].
    destruct (Rle_dec e2 0) as [Hle | _]; [lra|]. cbv zeta.
    pose proof (zenith_in_first_quadrant e1 ltac:(lra)) as Hz1.
    pose proof (zenith_in_first_quadrant e2 ltac:(lra)) as Hz2.
    pose proof PI_RGT_0.
    apply haurwitz_increasing. split.
    + apply cos_zenith_pos. lra.
    + apply cos_decr_1; try lra. unfold DEG_TO_RAD. lra.
Qed.

Lemma getIrradiance_monotone_witness : getIrradiance 10 <= getIrradiance 60.
Proof. apply (getIrradiance_monotone 10 60); lra. Defined.

End IrradianceFacts.

(** ** computeSolar as a whole *)

Lemma computeSolar_ok_in_month (lat lon : R)
    (year month day hour minute second tz_offset : Z) (port : SerialPort) :
  1 <= month <= 12 ->
  exists v : SolarOutput,
    solarValues lat lon year month day hour minute second tz_offset = Ok v /\
    computeSolar lat lon year month day hour minute second tz_offset port
    = Ok (port ++ printSolar v []).
Proof.
  intros Hm. destruct (dayOfYear_ok year month day Hm) as [doy Hdoy].
  assert (Hv : exists v : SolarOutput,
             solarValues lat lon year month day hour minute second tz_offset
             = Ok v).
  { unfold solarValues. rewrite Hdoy. cbn [bind]. eexists. reflexivity. }
  destruct Hv as [v Hv]. exists v. split; [exact Hv|].
  unfold computeSolar. rewrite Hv. cbn [bind].
  rewrite printSolar_appends. reflexivity.
Qed.

(** X14.  [computeSolar] checks none of its arguments.  For a month that
    is an [int] it meets the out-of-bounds read of [dayOfYear], exactly
    when the month is outside 1..12; with a month of 1..12 it computes and
    prints for any day, hour, minute, second and offset, leaving what was
    written before in place. *)
Theorem computeSolar_faults_on_month_only (lat lon : R)
    (year month day hour minute second tz_offset : Z) (port : SerialPort) :
  CInt.in_int month ->
  (computeSolar lat lon year month day hour minute second tz_offset port
   = Fault IndexOutOfBounds <-> ~ 1 <= month <= 12) /\
  (1 <= month <= 12 ->
   exists v : SolarOutput,
     solarValues lat lon year month day hour minute second tz_offset = Ok v /\
     computeSolar lat lon year month day hour minute second tz_offset port
     = Ok (port ++ printSolar v [])).
Proof.
  intros Hin.
  assert (Hok : 1 <= month <= 12 ->
          exists v : SolarOutput,
            solarValues lat lon year month day hour minute second tz_offset
            = Ok v).
  { intros Hm. destruct (dayOfYear_ok year month day Hm) as [doy Hdoy].
    unfold solarValues. rewrite Hdoy. cbn [bind]. eexists. reflexivity. }
  split; [split|].
  - intros Hf Hm. destruct (Hok Hm) as [v Hv].
    unfold computeSolar in Hf. rewrite Hv in Hf. discriminate.
  - intros Hm. unfold computeSolar, solarValues, dayOfYear.
    rewrite (array_get_outside month Hin Hm). reflexivity.
  - intros Hm. destruct (Hok Hm) as [v Hv]. exists v. split; [exact Hv|].
    unfold computeSolar. rewrite Hv. cbn [bind].
    rewrite printSolar_appends. reflexivity.
Qed.

Lemma computeSolar_faults_on_month_only_witness :
  computeSolar latitude longitude 2025 0 0 0 0 0 0 [] = Fault IndexOutOfBounds /\
  exists v : SolarOutput,
    solarValues latitude longitude 2025 6 99 99 99 99 99 = Ok v.
Proof.
  assert (H0 : CInt.in_int 0) by (apply in_int_bounds; lia).
  assert (H6 : CInt.in_int 6) by (apply in_int_bounds; lia).
  destruct (computeSolar_faults_on_month_only
              latitude longitude 2025 0 0 0 0 0 0 [] H0) as [[_ Hf] _].
  destruct (computeSolar_faults_on_month_only
              latitude longitude 2025 6 99 99 99 99 99 [] H6) as [_ Hok].
  split; [apply Hf; lia|].
  destruct (Hok ltac:(lia)) as [v [Hv _]]. exists v. exact Hv.
Defined.

(** ** loop: how lines are assembled *)

Lemma append_snoc (s t : string) (c : Ascii.ascii) :
  ((s ++ String c "") ++ t)%string = (s ++ String c t)%string.
Proof.
  induction s as [|a s IH]; cbn [String.append]; [reflexivity|].
  rewrite IH. reflexivity.
Qed.

Lemma append_empty_r (s : string) : (s ++ "")%string = s.
Proof.
  induction s as [|a s IH]; cbn [String.append]; [reflexivity|].
  rewrite IH. reflexivity.
Qed.

Lemma list_ascii_of_append (s t : string) :
  list_ascii_of_string (s ++ t)
  = (list_ascii_of_string s ++ list_ascii_of_string t)%list.
Proof.
  induction s as [|a s IH]; cbn [String.append list_ascii_of_string app];
    [reflexivity|].
  rewrite IH. reflexivity.
Qed.

Section ArduinoLoopFacts.

Variable sscanf6 : string -> option (Z * Z * Z * Z * Z * Z).

Lemma loop_app (rx1 rx2 : list Ascii.ascii) (st : LoopState) :
  loop sscanf6 (rx1 ++ rx2) st
  = match loop sscanf6 rx1 st with
    | Running st' => loop sscanf6 rx2 st'
    | Stopped why => Stopped why
    end.
Proof.
  revert st. induction rx1 as [|c rx1 IH]; intros st; cbn [app loop].
  - reflexivity.
  - destruct (loopChar sscanf6 c st) as [st' | why]; [apply IH | reflexivity].
Qed.

Lemma loop_accumulates (rx : list Ascii.ascii) (st : LoopState) :
  noLineEnd rx ->
  loop sscanf6 rx st
  = Running {| input := input st ++ string_of_list_ascii rx;
               serial := serial st |}.
Proof.
  intros Hrx. revert st.
  induction Hrx as [|c rx Hc Hrx IH]; intros st;
    cbn [loop string_of_list_ascii].
  - rewrite append_empty_r. destruct st; reflexivity.
  - unfold loopChar. rewrite Hc. rewrite IH. cbn [input serial].
    rewrite append_snoc. reflexivity.
Qed.

Lemma loopChar_line_end_empty (t : Ascii.ascii) (st : LoopState) :
  isLineEnd t = true -> input st = ""%string ->
  loopChar sscanf6 t st = Running st.
Proof.
  intros Ht Hin. unfold loopChar. rewrite Ht, Hin. reflexivity.
Qed.

Lemma loopChar_line_end_clears (t : Ascii.ascii) (st st' : LoopState) :
  isLineEnd t = true -> loopChar sscanf6 t st = Running st' ->
  input st' = ""%string.
Proof.
  intros Ht. unfold loopChar. rewrite Ht.
  destruct (input st) as [|a s] eqn:Hin; cbn [String.length Nat.ltb Nat.leb].
  - intros H. injection H as <-. exact Hin.
  - destruct (sscanf6 (String a s)) as [[[[[[y m] d] h] mi] se]|];
      [|discriminate].
    destruct (handleLine y m d h mi se (serial st)); [|discriminate].
    intros H. injection H as <-. reflexivity.
Qed.

Lemma loop_line_ends_empty (ts : list Ascii.ascii) (st : LoopState) :
  Forall (fun c => isLineEnd c = true) ts -> input st = ""%string ->
  loop sscanf6 ts st = Running st.
Proof.
  intros Hts Hin. induction Hts as [|t ts Ht Hts IH]; cbn [loop].
  - reflexivity.
  - rewrite (loopChar_line_end_empty t st Ht Hin). exact IH.
Qed.

Lemma handleLine_appends (year month day hour minute second : Z)
    (port port' : SerialPort) :
  handleLine year month day hour minute second port = Ok port' ->
  exists out : list SerialItem, port' = port ++ out.
Proof.
  unfold handleLine, computeSolar. cbv zeta.
  destruct (solarValues latitude longitude year month day hour minute second
              (select_tz_offset year month day hour)) as [v | f];
    cbn [bind]; [|discriminate].
  intros H. injection H as <-.
  rewrite printSolar_appends. unfold println. rewrite <- app_assoc.
  eexists. reflexivity.
Qed.

Lemma loopChar_appends (c : Ascii.ascii) (st st' : LoopState) :
  loopChar sscanf6 c st = Running st' ->
  exists out : list SerialItem, serial st' = serial st ++ out.
Proof.
  unfold loopChar.
  destruct (isLineEnd c).
  - destruct (0 <? String.length (input st))%nat.
    + destruct (sscanf6 (input st)) as [[[[[[y m] d] h] mi] se]|];
        [|discriminate].
      destruct (handleLine y m d h mi se (serial st)) as [port|] eqn:Hh;
        [|discriminate].
      intros H. injection H as <-. cbn [serial].
      exact (handleLine_appends _ _ _ _ _ _ _ _ Hh).
    + intros H. injection H as <-. exists []. rewrite app_nil_r. reflexivity.
  - intros H. injection H as <-. exists []. cbn [serial].
    rewrite app_nil_r. reflexivity.
Qed.

Lemma loopChar_keeps_noLineEnd (c : Ascii.ascii) (st st' : LoopState) :
  noLineEnd (list_ascii_of_string (input st)) ->
  loopChar sscanf6 c st = Running st' ->
  noLineEnd (list_ascii_of_string (input st')).
Proof.
  intros Hinv. destruct (isLineEnd c) eqn:Hc.
  - intros Hrun.
    rewrite (loopChar_line_end_clears c st st' Hc Hrun). constructor.
  - unfold loopChar. rewrite Hc. intros H. injection H as <-. cbn [input].
    rewrite list_ascii_of_append. apply Forall_app. split; [exact Hinv|].
    repeat constructor. exact Hc.
Qed.

End ArduinoLoopFacts.

Section ArduinoLoopProperties.

Variable sscanf6 : string -> option (Z * Z * Z * Z * Z * Z).

(** X17.  Characters that are not a line end are only stored: whatever
    their number, [loop] appends them to [input] in order, computes
    nothing and writes nothing. *)
Theorem loop_buffers_until_line_end (rx : list Ascii.ascii) (st : LoopState) :
  noLineEnd rx ->
  loop sscanf6 rx st
  = Running {| input := input st ++ string_of_list_ascii rx;
               serial := serial st |}.
Proof.
  intros Hrx. revert st.
  induction Hrx as [|c rx Hc Hrx IH]; intros st;
    cbn [loop string_of_list_ascii].
  - rewrite append_empty_r. destruct st; reflexivity.
  - unfold loopChar. rewrite Hc. cbn [input serial].
    rewrite IH. cbn [input serial]. rewrite append_snoc. reflexivity.
Qed.

(** X18.  A line end that follows a line end is ignored: a run of '\n'
    and '\r' acts as its first character, so a line closed by "\r\n" is
    handled once, and with an empty [input] line ends change nothing
    (blank lines give no output). *)
Theorem loop_line_end_run (t : Ascii.ascii) (ts : list Ascii.ascii)
    (st : LoopState) :
  isLineEnd t = true -> Forall (fun c => isLineEnd c = true) ts ->
  loop sscanf6 (t :: ts) st = loop sscanf6 [t] st /\
  (input st = ""%string -> loop sscanf6 (t :: ts) st = Running st).
Proof.
  intros Ht Hts. split.
  - cbn [loop].
    destruct (loopChar sscanf6 t st) as [st' | why] eqn:Hc; [|reflexivity].
    apply loop_line_ends_empty; [exact Hts|].
    exact (loopChar_line_end_clears sscanf6 t st st' Ht Hc).
  - intros Hin. apply loop_line_ends_empty; [|exact Hin].
    constructor; assumption.
Qed.

(** X19.  [input] never holds a line end: if it holds none before a call
    of [loop], it holds none after, whatever was received. *)
Theorem loop_input_has_no_line_end (rx : list Ascii.ascii)
    (st st' : LoopState) :
  noLineEnd (list_ascii_of_string (input st)) ->
  loop sscanf6 rx st = Running st' ->
  noLineEnd (list_ascii_of_string (input st')).
Proof.
  revert st. induction rx as [|c rx IH]; intros st Hinv; cbn [loop].
  - intros H. injection H as <-. exact Hinv.
  - destruct (loopChar sscanf6 c st) as [st1 | why] eqn:Hc; [|discriminate].
    apply IH. exact (loopChar_keeps_noLineEnd sscanf6 c st st1 Hinv Hc).
Qed.

(** X20.  One complete line.  From an empty [input], a non-empty line
    without line end followed by a line end is scanned once.  If six
    fields are converted and the month is in 1..12, the report of
    [computeSolar] for these fields at the fixed location, with the offset
    -5 or -6 chosen by [isDST], is appended to the port, then the prompt,
    and [input] is empty again; if the month is outside 1..12 the run
    ends in the out-of-bounds read; if fewer than six fields are
    converted, the fields are indeterminate. *)
Theorem loop_complete_line (line : list Ascii.ascii) (t : Ascii.ascii)
    (port : SerialPort) :
  noLineEnd line -> line <> [] -> isLineEnd t = true ->
  let start := {| input := ""; serial := port |} in
  (sscanf6 (string_of_list_ascii line) = None ->
   loop sscanf6 (line ++ [t]) start = Stopped FieldsNotScanned) /\
  (forall year month day hour minute second : Z,
      sscanf6 (string_of_list_ascii line)
      = Some (year, month, day, hour, minute, second) ->
      (1 <= month <= 12 ->
       exists v : SolarOutput,
         solarValues latitude longitude year month day hour minute second
           (if isDST year month day hour then -5 else -6) = Ok v /\
         loop sscanf6 (line ++ [t]) start
         = Running
             {| input := "";
                serial :=
                  port ++ printSolar v []
                  ++ [Text (String (Ascii.ascii_of_nat 10) "Enter next time:");
                      EndOfLine] |}) /\
      (CInt.in_int month -> ~ 1 <= month <= 12 ->
       loop sscanf6 (line ++ [t]) start
       = Stopped (CoreFault IndexOutOfBounds))).
Proof.
  intros Hline Hne Ht start.
  assert (Hrun : loop sscanf6 (line ++ [t]) start
                 = loopChar sscanf6 t
                     {| input := string_of_list_ascii line; serial := port |}).
  { rewrite loop_app, (loop_accumulates sscanf6 line start Hline).
    cbn [loop input serial String.append].
    destruct (loopChar sscanf6 t _); reflexivity. }
  rewrite Hrun. unfold loopChar. rewrite Ht. cbn [input serial].
  assert (Hlen : (0 <? String.length (string_of_list_ascii line))%nat = true).
  { destruct line as [|c line]; [contradiction | reflexivity]. }
  rewrite Hlen. split.
  - intros ->. reflexivity.
  - intros year month day hour minute second ->. split.
    + intros Hm.
      destruct (computeSolar_ok_in_month
                  latitude longitude year month day hour minute second
                  (select_tz_offset year month day hour) port Hm)
        as [v [Hv Hc]].
      exists v. split; [exact Hv|].
      unfold handleLine. cbv zeta. rewrite Hc. cbn [bind].
      unfold println. rewrite <- app_assoc. reflexivity.
    + intros Hin Hm. unfold handleLine, computeSolar, solarValues, dayOfYear.
      cbv zeta. rewrite (array_get_outside month Hin Hm). reflexivity.
Qed.

(** X21.  The result does not depend on how the characters arrive: calls
    of [loop] on successive batches give what one call on all of them
    gives; a line cut between two calls is kept in [input]. *)
Theorem runLoops_concat (arrivals : list (list Ascii.ascii))
    (st : LoopState) :
  runLoops sscanf6 arrivals st = loop sscanf6 (List.concat arrivals) st.
Proof.
  revert st. induction arrivals as [|rx arrivals IH]; intros st;
    cbn [runLoops List.concat].
  - reflexivity.
  - rewrite loop_app.
    destruct (loop sscanf6 rx st) as [st' | why]; [apply IH | reflexivity].
Qed.

(** X22.  [loop] only ever appends to the port: what was written before a
    call is still there, first, after it. *)
Theorem loop_only_appends (rx : list Ascii.ascii) (st st' : LoopState) :
  loop sscanf6 rx st = Running st' ->
  exists out : list SerialItem, serial st' = serial st ++ out.
Proof.
  revert st. induction rx as [|c rx IH]; intros st; cbn [loop].
  - intros H. injection H as <-. exists []. rewrite app_nil_r. reflexivity.
  - destruct (loopChar sscanf6 c st) as [st1 | why] eqn:Hc; [|discriminate].
    intros Hrun. destruct (IH st1 Hrun) as [out2 H2].
    destruct (loopChar_appends sscanf6 c st st1 Hc) as [out1 H1].
    exists (out1 ++ out2). rewrite H2, H1, app_assoc. reflexivity.
Qed.

End ArduinoLoopProperties.

Lemma loop_buffers_until_line_end_witness :
  loop (fun _ => None) (list_ascii_of_string "2025,6")
    {| input := ""; serial := [] |}
  = Running {| input := "2025,6"; serial := [] |}.
Proof.
  apply (loop_buffers_until_line_end (fun _ => None)
           (list_ascii_of_string "2025,6") {| input := ""; serial := [] |}).
  repeat constructor.
Defined.

Lemma loop_line_end_run_witness :
  loop (fun _ => None)
    [Ascii.ascii_of_nat 13; Ascii.ascii_of_nat 10; Ascii.ascii_of_nat 10]
    {| input := ""; serial := [] |}
  = Running {| input := ""; serial := [] |}.
Proof.
  apply (loop_line_end_run (fun _ => None) (Ascii.ascii_of_nat 13)
           [Ascii.ascii_of_nat 10; Ascii.ascii_of_nat 10]
           {| input := ""; serial := [] |});
    [reflexivity | repeat constructor | reflexivity].
Defined.

Lemma loop_input_has_no_line_end_witness :
  noLineEnd (list_ascii_of_string "14,0").
Proof.
  apply (loop_input_has_no_line_end (fun _ => None)
           (list_ascii_of_string ",0")
           {| input := "14"; serial := [] |}
           {| input := "14,0"; serial := [] |});
    [repeat constructor | reflexivity].
Defined.

Lemma loop_complete_line_witness :
  exists v : SolarOutput,
    solarValues latitude longitude 2025 6 13 22 14 0 (-5) = Ok v /\
    loop (fun _ => Some (2025, 6, 13, 22, 14, 0))
      (list_ascii_of_string "2025,6,13,22,14,0" ++ [Ascii.ascii_of_nat 10])
      {| input := ""; serial := [] |}
    = Running
        {| input := "";
           serial :=
             [] ++ printSolar v []
             ++ [Text (String (Ascii.ascii_of_nat 10) "Enter next time:");
                 EndOfLine] |}.
Proof.
  destruct (loop_complete_line (fun _ => Some (2025, 6, 13, 22, 14, 0))
              (list_ascii_of_string "2025,6,13,22,14,0")
              (Ascii.ascii_of_nat 10) [])
    as [_ H]; [repeat constructor | discriminate | reflexivity |].
  destruct (H 2025 6 13 22 14 0 eq_refl) as [Hok _].
  apply Hok. lia.
Defined.

Lemma loop_only_appends_witness :
  exists out : list SerialItem, [Text "x"] = [Text "x"] ++ out.
Proof.
  apply (loop_only_appends (fun _ => None)
           (list_ascii_of_string "20")
           {| input := ""; serial := [Text "x"] |}
           {| input := "20"; serial := [Text "x"] |}).
  reflexivity.
Defined.

(** ** getGamma *)

(** X23.  Through a year gamma grows with time: for a day of the year in
    1..366 and an hour in 0..23 it is the exact value
    2 PI / 365 * (doy - 1 + (hour - 12) / 24), it lies between -PI/365
    (1 January, 0 h) and 2 PI + PI/365, it is 0 at noon of 1 January, and
    a later hour or day gives a strictly larger gamma. *)
Theorem getGamma_grows_with_time (doy hour doy' hour' : Z) :
  1 <= doy <= 366 -> 0 <= hour <= 23 ->
  1 <= doy' <= 366 -> 0 <= hour' <= 23 ->
  (getGamma doy hour
   = 2 * PI / 365 * (IZR doy - 1 + (IZR hour - 12) / 24))%R /\
  (- PI / 365 <= getGamma doy hour < 2 * PI + PI / 365)%R /\
  getGamma 1 12 = 0%R /\
  (doy < doy' \/ (doy = doy' /\ hour < hour') ->
   (getGamma doy hour < getGamma doy' hour')%R).
Proof.
  intros Hd Hh Hd' Hh'.
  assert (Hex : forall d h : Z, 1 <= d <= 366 -> 0 <= h <= 23 ->
            (getGamma d h
             = 2 * PI / 365 * (IZR d - 1 + (IZR h - 12) / 24))%R).
  { intros d h Hd0 Hh0. unfold getGamma, Arduino_PI.
    rewrite !sub_small by (apply in_int_bounds; lia).
    rewrite !minus_IZR. reflexivity. }
  pose proof PI_RGT_0 as Hpi.
  assert (Rd : (1 <= IZR doy <= 366)%R)
    by (split; apply IZR_le; lia).
  assert (Rh : (0 <= IZR hour <= 23)%R)
    by (split; apply IZR_le; lia).
  assert (Rh' : (0 <= IZR hour' <= 23)%R)
    by (split; apply IZR_le; lia).
  split; [apply Hex; assumption|]. split; [|split].
  - rewrite (Hex doy hour Hd Hh). split; nra.
  - rewrite (Hex 1 12) by lia. field.
  - intros Hlater. rewrite (Hex doy hour Hd Hh), (Hex doy' hour' Hd' Hh').
    assert (Hstep : (IZR doy - 1 + (IZR hour - 12) / 24
                     < IZR doy' - 1 + (IZR hour' - 12) / 24)%R).
    { destruct Hlater as [Hlt | [-> Hlt]].
      - assert (IZR doy + 1 <= IZR doy')%R.
        { rewrite <- plus_IZR. apply IZR_le. lia. }
        lra.
      - apply IZR_lt in Hlt. lra. }
    nra.
Qed.

Lemma getGamma_grows_with_time_witness :
  (getGamma 164 22 < getGamma 165 0)%R.
Proof.
  apply (getGamma_grows_with_time 164 22 165 0); lia.
Defined.
